(** * external-dns Porkbun webhook: the provider's reconciliation core

    A shallow embedding of [provider/porkbun.go]: the zone matcher
    ([endpointZoneName]), the record matcher ([getIDforRecord]), the
    endpoint-to-record converter ([convertToPorkbunRecord]), the no-op
    suppressor ([removeNoopTXTUpdates]) and the operations that talk to the
    Porkbun API client ([DeleteDnsRecords], [UpdateDnsRecords], [Records],
    [ApplyChanges]).

    Go strings are byte sequences: they are modelled as [list ascii].
    Integers of type [int]/[int64] are modelled as [Z]; the only place
    where their 64-bit range matters is [strconv.Atoi], which checks it.
    The operations on the client run in a state monad over the state of
    the remote host and the list of the client calls issued so far. *)

From Stdlib Require Import ZArith Ascii String DecimalString.
From Stdlib Require DecimalPos.
From stdpp Require Import gmap strings list fin_maps.

Open Scope Z_scope.

Abbreviation gostring := (list ascii).

(** A Go string literal. *)
Definition str (s : string) : gostring := list_ascii_of_string s.

(** ** The parts of Go's [strings] package the provider uses *)
Module Strings.

(** [len(s) >= len(prefix) && s[:len(prefix)] == prefix] *)
Definition HasPrefix (s prefix : gostring) : bool :=
  bool_decide (length prefix ≤ length s)%nat
  && bool_decide (take (length prefix) s = prefix).

(** [len(s) >= len(suffix) && s[len(s)-len(suffix):] == suffix] *)
Definition HasSuffix (s suffix : gostring) : bool :=
  bool_decide (length suffix ≤ length s)%nat
  && bool_decide (drop (length s - length suffix) s = suffix).

(** [if HasSuffix(s, suffix) { return s[:len(s)-len(suffix)] }; return s] *)
Definition TrimSuffix (s suffix : gostring) : gostring :=
  if HasSuffix s suffix then take (length s - length suffix) s else s.

(** Membership of a byte in an ASCII cutset. *)
Definition inCutset (cutset : gostring) (c : ascii) : bool :=
  bool_decide (c ∈ cutset).

(** [for len(s) > 0 && s[0] in cutset { s = s[1:] }] *)
Fixpoint TrimLeft (s cutset : gostring) : gostring :=
  match s with
  | [] => []
  | c :: s' => if inCutset cutset c then TrimLeft s' cutset else s
  end.

(** [for len(s) > 0 && s[len(s)-1] in cutset { s = s[:len(s)-1] }] *)
Definition TrimRight (s cutset : gostring) : gostring :=
  reverse (TrimLeft (reverse s) cutset).

(** [strings.Trim] for an ASCII cutset: the right end is trimmed first,
    then the left end. *)
Definition Trim (s cutset : gostring) : gostring :=
  TrimLeft (TrimRight s cutset) cutset.

(** [strings.Split(s, sep)] for a one-byte separator: never empty. *)
Fixpoint Split (s : gostring) (sep : ascii) : list gostring :=
  match s with
  | [] => [[]]
  | c :: s' =>
      if bool_decide (c = sep) then [] :: Split s' sep
      else match Split s' sep with
           | h :: t => (c :: h) :: t
           | [] => [[c]]
           end
  end.

End Strings.

(** ** The parts of Go's [strconv] package the provider uses *)
Module Strconv.

(** [strconv.Atoi] fails with a syntax error or with a range error. *)
Inductive NumError := ErrSyntax | ErrRange.

(** [ch -= '0'; if ch > 9 { syntax error }] *)
Definition digit (ch : ascii) : option Z :=
  let d := Z.of_N (N_of_ascii ch) - 48 in
  if (0 <=? d) && (d <=? 9) then Some d else None.

(** The loop over the digits, left to right: [n = n*10 + d], with a range
    error as soon as the value leaves [uint64]. *)
Fixpoint digits (n : Z) (s : gostring) : NumError + Z :=
  match s with
  | [] => inr n
  | ch :: s' =>
      match digit ch with
      | None => inl ErrSyntax
      | Some d =>
          if 2 ^ 64 <=? n * 10 + d then inl ErrRange
          else digits (n * 10 + d) s'
      end
  end.

(** [strconv.Atoi] on a 64-bit platform: an optional sign, then one or
    more decimal digits, and the value has to fit an [int]. The short
    strings of the fast path cannot overflow, so one definition covers
    both paths. *)
Definition Atoi (s : gostring) : NumError + Z :=
  match s with
  | [] => inl ErrSyntax
  | c :: s' =>
      let neg := bool_decide (c = "-"%char) in
      let signed := neg || bool_decide (c = "+"%char) in
      let body := if signed then s' else s in
      match body with
      | [] => inl ErrSyntax
      | _ :: _ =>
          match digits 0 body with
          | inl e => inl e
          | inr un =>
              if neg then
                if 2 ^ 63 <? un then inl ErrRange else inr (- un)
              else
                if 2 ^ 63 <=? un then inl ErrRange else inr un
          end
      end
  end.

(** [strconv.FormatInt(i, 10)]: a minus sign for negative numbers, no
    leading zeros, ["0"] for zero. *)
Definition FormatInt (i : Z) : gostring :=
  str (NilZero.string_of_int (Z.to_int i)).

End Strconv.

(** ** Data model *)

(** [endpoint.Endpoint] of external-dns: the fields the provider reads. *)
Record Endpoint := mkEndpoint {
  DNSName : gostring;
  Targets : list gostring;
  RecordType : gostring;
  RecordTTL : Z
}.

(** [pb.Record] of the Porkbun client. *)
Record Record_ := mkRecord {
  ID : gostring;
  Name : gostring;
  Type_ : gostring;
  Content : gostring;
  TTL : gostring;
  Prio : gostring;
  Notes : gostring
}.

(** [plan.Changes] of external-dns. *)
Record Changes := mkChanges {
  Create : list Endpoint;
  UpdateOld : list Endpoint;
  UpdateNew : list Endpoint;
  Delete : list Endpoint
}.

(** [PorkbunChange]: the change sets handed to the Porkbun API. *)
Record PorkbunChange := mkPorkbunChange {
  pcCreate : list Record_;
  pcDesiredAfterUpdate : list Record_;
  pcDelete : list Record_
}.

#[global] Instance Endpoint_eq_dec : EqDecision Endpoint.
Proof. solve_decision. Defined.

#[global] Instance Record_eq_dec : EqDecision Record_.
Proof. solve_decision. Defined.

Definition RecordTypeTXT : gostring := str "TXT".
Definition RecordTypeA : gostring := str "A".

(** ** Pure helpers of the provider *)

(** The loop of [endpointZoneName], with [matchZoneName] as accumulator. *)
Fixpoint endpointZoneName_loop (name matchZoneName : gostring)
    (zones : list gostring) : gostring :=
  match zones with
  | [] => matchZoneName
  | zoneName :: zones' =>
      if Strings.HasSuffix name zoneName
         && bool_decide (length matchZoneName < length zoneName)%nat
      then endpointZoneName_loop name zoneName zones'
      else endpointZoneName_loop name matchZoneName zones'
  end.

Definition endpointZoneName (endpoint : Endpoint) (zones : list gostring)
    : gostring :=
  endpointZoneName_loop (DNSName endpoint) [] zones.

Fixpoint getIDforRecord (recordName target recordType : gostring)
    (recs : list Record_) (useStrictMatchForDelete : bool) : gostring :=
  match recs with
  | [] => []
  | rec :: recs' =>
      if bool_decide (Type_ rec ≠ recordType)
         || bool_decide (Name rec ≠ recordName)
      then getIDforRecord recordName target recordType recs'
             useStrictMatchForDelete
      else if useStrictMatchForDelete && bool_decide (target ≠ Content rec)
      then getIDforRecord recordName target recordType recs'
             useStrictMatchForDelete
      else ID rec
  end.

(** The zone-relative name computed at the head of the converter's loop. *)
Definition recordNameOf (fqdn zoneName : gostring) : gostring :=
  if bool_decide (fqdn = zoneName) then []
  else Strings.TrimSuffix fqdn (str "." ++ zoneName).

(** The double-quote byte, 0x22. *)
Definition quote : ascii := ascii_of_N 34.

(** The Go literal written as a quote followed by [heritage=]. *)
Definition heritagePrefix : gostring := quote :: str "heritage=".

(** The content computed from the first target. *)
Definition contentOf (recordType target : gostring) : gostring :=
  if bool_decide (recordType = RecordTypeTXT)
     && Strings.HasPrefix target heritagePrefix
  then Strings.Trim target [quote]
  else target.

Fixpoint convertToPorkbunRecord (recs : list Record_)
    (endpoints : list Endpoint) (zoneName : gostring)
    (useStrictMatchForDelete : bool) : list Record_ :=
  match endpoints with
  | [] => []
  | ep :: endpoints' =>
      let fqdn := DNSName ep in
      let recordName := recordNameOf fqdn zoneName in
      match Targets ep with
      | [] =>
          convertToPorkbunRecord recs endpoints' zoneName
            useStrictMatchForDelete
      | target0 :: _ =>
          let target := contentOf (RecordType ep) target0 in
          let id := getIDforRecord fqdn target (RecordType ep) recs
                      useStrictMatchForDelete in
          {| Type_ := RecordType ep;
             Name := recordName;
             TTL := Strconv.FormatInt (RecordTTL ep);
             Content := target;
             ID := id;
             Prio := [];
             Notes := [] |}
          :: convertToPorkbunRecord recs endpoints' zoneName
               useStrictMatchForDelete
      end
  end.

(** The first loop of [removeNoopTXTUpdates]: [oldMap], keyed by
    (DNS name, first target); a later entry overwrites an earlier one. *)
Fixpoint buildOldMap (oldMap : gmap (gostring * gostring) Endpoint)
    (updateOld : list Endpoint) : gmap (gostring * gostring) Endpoint :=
  match updateOld with
  | [] => oldMap
  | ep :: updateOld' =>
      if bool_decide (RecordType ep ≠ RecordTypeTXT)
      then buildOldMap oldMap updateOld'
      else match Targets ep with
           | [] => buildOldMap oldMap updateOld'
           | target0 :: _ =>
               buildOldMap (<[(DNSName ep, target0) := ep]> oldMap) updateOld'
           end
  end.

(** The second loop of [removeNoopTXTUpdates]: [filtered]. After the
    test on the length, [ep.Targets[0]] is in range: the branch for the
    empty list below cannot be reached. *)
Fixpoint filterUpdateNew (oldMap : gmap (gostring * gostring) Endpoint)
    (updateNew : list Endpoint) : list Endpoint :=
  match updateNew with
  | [] => []
  | ep :: updateNew' =>
      if bool_decide (RecordType ep ≠ RecordTypeTXT)
         || bool_decide (length (Targets ep) = 0%nat)
      then ep :: filterUpdateNew oldMap updateNew'
      else match Targets ep with
           | [] => ep :: filterUpdateNew oldMap updateNew'
           | target0 :: _ =>
               match oldMap !! (DNSName ep, target0) with
               | Some old =>
                   if bool_decide (RecordTTL old = RecordTTL ep)
                   then filterUpdateNew oldMap updateNew'
                   else ep :: filterUpdateNew oldMap updateNew'
               | None => ep :: filterUpdateNew oldMap updateNew'
               end
           end
  end.

(** [removeNoopTXTUpdates] mutates [c.UpdateNew] in place: the changed
    batch is returned. *)
Definition removeNoopTXTUpdates (c : Changes) : Changes :=
  if bool_decide (length (UpdateOld c) = 0%nat)
     || bool_decide (length (UpdateNew c) = 0%nat)
  then c
  else
    let oldMap := buildOldMap ∅ (UpdateOld c) in
    {| Create := Create c;
       UpdateOld := UpdateOld c;
       UpdateNew := filterUpdateNew oldMap (UpdateNew c);
       Delete := Delete c |}.

(** ** The provider and its API client *)

(** [PorkbunProvider]: the configured zones ([domainFilter.Filters]) and
    the dry-run flag. The client is an instance of [Client] below; the
    logger is left out. *)
Record PorkbunProvider := mkProvider {
  domainFilter : list gostring;
  dryRun : bool
}.

(** A call on the Porkbun API client. *)
Inductive Call :=
| CallPing
| CallRetrieveRecords (zone : gostring)
| CallCreateRecord (zone : gostring) (record : Record_)
| CallEditRecord (zone : gostring) (id : Z) (record : Record_)
| CallDeleteRecord (zone : gostring) (id : Z).

Definition emptyChanges : Changes :=
  {| Create := []; UpdateOld := []; UpdateNew := []; Delete := [] |}.

(** The client [pb.Client]: the state of the remote DNS host, the errors
    the client reports, and its operations as functions on that state. *)
Class Client := {
  World : Type;
  ClientError : Type;
  Ping : World -> option ClientError * World;
  RetrieveRecords : gostring -> World -> (ClientError + list Record_) * World;
  CreateRecord : gostring -> Record_ -> World -> (ClientError + Z) * World;
  EditRecord : gostring -> Z -> Record_ -> World -> option ClientError * World;
  DeleteRecord : gostring -> Z -> World -> option ClientError * World
}.

(** What the provider takes from external-dns and from the Go runtime:
    [plan.Changes.HasChanges]; [endpoint.NewEndpointWithTTL], which returns
    a pointer that may be nil; and the order in which [range] visits the
    entries of a map, each entry once, in an order Go leaves open. *)
Class Externals := {
  HasChanges : Changes -> bool;
  NewEndpointWithTTL :
    gostring -> gostring -> Z -> list gostring -> option Endpoint;
  rangeOrder : gmap gostring Changes -> list (gostring * Changes);
  rangeOrder_perm : ∀ m, rangeOrder m ≡ₚ map_to_list m
}.

Section Provider.

Context `{Client} `{Externals}.

(** Go errors: a client error, the identifier that [strconv.Atoi]
    refused, or [fmt.Errorf] wrapping another error with [%w]. *)
Inductive error :=
| ErrClient (e : ClientError)
| ErrParseID (record : Record_) (e : Strconv.NumError)
| ErrWrap (msg : string) (e : error).

(** The remote state together with the client calls issued so far,
    oldest first. *)
Record State := mkState { world : World; calls : list Call }.

Definition M (A : Type) : Type := State -> A * State.

Definition ret {A} (a : A) : M A := fun st => (a, st).

Definition bind {A B} (m : M A) (k : A -> M B) : M B :=
  fun st => let (a, st') := m st in k a st'.

Notation "x <- m ;; k" := (bind m (fun x => k))
  (at level 100, m at next level, right associativity).

(** One client call: it acts on the remote state and is recorded. *)
Definition call {A} (c : Call) (op : World -> A * World) : M A :=
  fun st =>
    let (a, w) := op (world st) in
    (a, {| world := w; calls := calls st ++ [c] |}).

Fixpoint DeleteDnsRecords (zone : gostring) (records : list Record_)
    : M (option error) :=
  match records with
  | [] => ret None
  | record :: records' =>
      match Strconv.Atoi (ID record) with
      | inl err => ret (Some (ErrParseID record err))
      | inr id =>
          err <- call (CallDeleteRecord zone id) (DeleteRecord zone id) ;;
          match err with
          | Some e =>
              ret (Some (ErrWrap "unable to delete record" (ErrClient e)))
          | None => DeleteDnsRecords zone records'
          end
      end
  end.

Fixpoint CreateDnsRecords (zone : gostring) (records : list Record_)
    : M (option error) :=
  match records with
  | [] => ret None
  | record :: records' =>
      r <- call (CallCreateRecord zone record) (CreateRecord zone record) ;;
      match r with
      | inl e => ret (Some (ErrWrap "unable to create record" (ErrClient e)))
      | inr _ => CreateDnsRecords zone records'
      end
  end.

Fixpoint UpdateDnsRecords (zone : gostring) (records : list Record_)
    : M (option error) :=
  match records with
  | [] => ret None
  | record :: records' =>
      match Strconv.Atoi (ID record) with
      | inl err => ret (Some (ErrParseID record err))
      | inr id =>
          err <- call (CallEditRecord zone id record)
                   (EditRecord zone id record) ;;
          match err with
          | Some e =>
              ret (Some (ErrWrap "unable to update record" (ErrClient e)))
          | None => UpdateDnsRecords zone records'
          end
      end
  end.

(** [ensureLogin] returns the error of [Ping] as it is. *)
Definition ensureLogin : M (option error) :=
  r <- call CallPing Ping ;;
  ret (ErrClient <$> r).

(** The name of the endpoint of a record: the domain when the first label
    of the record's name is the root marker. [Split] never returns an
    empty list, so the index 0 is in range. *)
Definition endpointNameOf (domain : gostring) (rec : Record_) : gostring :=
  let nameStart := hd [] (Strings.Split (Name rec) "."%char) in
  if bool_decide (nameStart = str "@") then domain else Name rec.

(** The body of the inner loop of [Records]: one endpoint per record. *)
Definition recordEndpoint (domain : gostring) (rec : Record_)
    : option Endpoint :=
  let name := endpointNameOf domain rec in
  let ttl := match Strconv.Atoi (TTL rec) with
             | inl _ => 600
             | inr ttl => ttl
             end in
  NewEndpointWithTTL name (Type_ rec) ttl [Content rec].

Fixpoint Records_inner (domain : gostring)
    (endpoints : list (option Endpoint)) (records : list Record_)
    : list (option Endpoint) :=
  match records with
  | [] => endpoints
  | rec :: records' =>
      Records_inner domain (endpoints ++ [recordEndpoint domain rec])
        records'
  end.

Fixpoint Records_loop (domains : list gostring)
    (endpoints : list (option Endpoint)) : M (list (option Endpoint)) :=
  match domains with
  | [] => ret endpoints
  | domain :: domains' =>
      r <- call (CallRetrieveRecords domain) (RetrieveRecords domain) ;;
      match r with
      | inl _ => Records_loop domains' endpoints
      | inr records =>
          Records_loop domains' (Records_inner domain endpoints records)
      end
  end.

(** How a call of [Records] ends: it returns the endpoints or an error,
    or it panics. *)
Inductive RecordsResult :=
| Returned (r : error + list (option Endpoint))
| Panicked.

(** The last loop of [Records] logs [endpointItem.String()] for every
    collected pointer. The argument is evaluated whatever the log level,
    and [String] reads the fields of the endpoint: on a nil pointer this is
    a nil pointer dereference. The loop gets through ([true]) when no
    pointer is nil and panics ([false]) at the first nil one. *)
Fixpoint Records_log (endpoints : list (option Endpoint)) : bool :=
  match endpoints with
  | [] => true
  | Some _ :: endpoints' => Records_log endpoints'
  | None :: _ => false
  end.

(** [Records] returns the endpoints, or the error of the login; it panics
    in its last loop when a collected pointer is nil. In a dry run the
    list is empty and the last loop has nothing to do. *)
Definition Records (p : PorkbunProvider) : M RecordsResult :=
  if dryRun p then ret (Returned (inr []))
  else
    err <- ensureLogin ;;
    match err with
    | Some e => ret (Returned (inl e))
    | None =>
        endpoints <- Records_loop (domainFilter p) [] ;;
        if Records_log endpoints then ret (Returned (inr endpoints))
        else ret Panicked
    end.

Definition applyChangesToZone (c : Changes) (zone : gostring)
    : M (option error) :=
  let c := removeNoopTXTUpdates c in
  if bool_decide
       (length (Create c) + length (Delete c) + length (UpdateNew c) = 0)%nat
  then ret None
  else
    r <- call (CallRetrieveRecords zone) (RetrieveRecords zone) ;;
    match r with
    | inl e => ret (Some (ErrWrap "unable to get DNS records" (ErrClient e)))
    | inr recs =>
        let change :=
          {| pcCreate := convertToPorkbunRecord recs (Create c) zone false;
             pcDesiredAfterUpdate :=
               convertToPorkbunRecord recs (UpdateNew c) zone false;
             pcDelete := convertToPorkbunRecord recs (Delete c) zone true |}
        in
        err <- DeleteDnsRecords zone (pcDelete change) ;;
        match err with
        | Some e => ret (Some (ErrWrap "unable to delete records" e))
        | None =>
            err <- CreateDnsRecords zone (pcCreate change) ;;
            match err with
            | Some e => ret (Some (ErrWrap "unable to create records" e))
            | None =>
                err <- UpdateDnsRecords zone (pcDesiredAfterUpdate change) ;;
                match err with
                | Some e =>
                    ret (Some (ErrWrap "unable to update records" e))
                | None => ret None
                end
            end
        end
    end.

(** [perZoneChanges]: one empty batch per configured zone. *)
Fixpoint initZones (perZoneChanges : gmap gostring Changes)
    (filters : list gostring) : gmap gostring Changes :=
  match filters with
  | [] => perZoneChanges
  | zoneName :: filters' =>
      initZones (<[zoneName := emptyChanges]> perZoneChanges) filters'
  end.

(** One of the four routing loops: [add] appends the endpoint to a list
    of the zone's batch. The zone name comes from the filter, so the
    batch is in the map. *)
Fixpoint route (filters : list gostring)
    (add : Endpoint -> Changes -> Changes)
    (perZoneChanges : gmap gostring Changes) (eps : list Endpoint)
    : gmap gostring Changes :=
  match eps with
  | [] => perZoneChanges
  | ep :: eps' =>
      let zoneName := endpointZoneName ep filters in
      if bool_decide (zoneName = []) then route filters add perZoneChanges eps'
      else route filters add (alter (add ep) zoneName perZoneChanges) eps'
  end.

Definition addCreate (ep : Endpoint) (c : Changes) : Changes :=
  {| Create := Create c ++ [ep]; UpdateOld := UpdateOld c;
     UpdateNew := UpdateNew c; Delete := Delete c |}.
Definition addUpdateOld (ep : Endpoint) (c : Changes) : Changes :=
  {| Create := Create c; UpdateOld := UpdateOld c ++ [ep];
     UpdateNew := UpdateNew c; Delete := Delete c |}.
Definition addUpdateNew (ep : Endpoint) (c : Changes) : Changes :=
  {| Create := Create c; UpdateOld := UpdateOld c;
     UpdateNew := UpdateNew c ++ [ep]; Delete := Delete c |}.
Definition addDelete (ep : Endpoint) (c : Changes) : Changes :=
  {| Create := Create c; UpdateOld := UpdateOld c;
     UpdateNew := UpdateNew c; Delete := Delete c ++ [ep] |}.

Definition partition (filters : list gostring) (changes : Changes)
    : gmap gostring Changes :=
  let m := initZones ∅ filters in
  let m := route filters addCreate m (Create changes) in
  let m := route filters addUpdateOld m (UpdateOld changes) in
  let m := route filters addUpdateNew m (UpdateNew changes) in
  route filters addDelete m (Delete changes).

(** The loop over [perZoneChanges], with [firstErr] as accumulator. *)
Fixpoint ApplyChanges_loop (entries : list (gostring * Changes))
    (firstErr : option error) : M (option error) :=
  match entries with
  | [] => ret firstErr
  | (zoneName, c) :: entries' =>
      if negb (HasChanges c) then ApplyChanges_loop entries' firstErr
      else
        err <- applyChangesToZone c zoneName ;;
        match err with
        | Some e =>
            ApplyChanges_loop entries'
              (match firstErr with None => Some e | Some _ => firstErr end)
        | None => ApplyChanges_loop entries' firstErr
        end
  end.

Definition ApplyChanges (p : PorkbunProvider) (changes : Changes)
    : M (option error) :=
  if negb (HasChanges changes) then ret None
  else
    err <- (if dryRun p then ret None else ensureLogin) ;;
    match err with
    | Some e => ret (Some e)
    | None =>
        let perZoneChanges := partition (domainFilter p) changes in
        if dryRun p then ret None
        else ApplyChanges_loop (rangeOrder perZoneChanges) None
    end.

(** *** Reference definitions for the operations *)

(** The client call that deleting, or updating, a record issues: none when
    its identifier is not a number. *)
Definition deleteCall (zone : gostring) (record : Record_) : option Call :=
  match Strconv.Atoi (ID record) with
  | inr id => Some (CallDeleteRecord zone id)
  | inl _ => None
  end.

Definition editCall (zone : gostring) (record : Record_) : option Call :=
  match Strconv.Atoi (ID record) with
  | inr id => Some (CallEditRecord zone id record)
  | inl _ => None
  end.

(** The domains whose records the client could list, each with its
    records, in the order of the filter. *)
Fixpoint listed (domains : list gostring)
    : M (list (gostring * list Record_)) :=
  match domains with
  | [] => ret []
  | domain :: domains' =>
      r <- call (CallRetrieveRecords domain) (RetrieveRecords domain) ;;
      rest <- listed domains' ;;
      ret (match r with
           | inl _ => rest
           | inr records => (domain, records) :: rest
           end)
  end.

(** Every zone that has changes is applied, one after the other, whatever
    the outcome of the zones before it; the outcomes are kept. *)
Fixpoint zoneOutcomes (entries : list (gostring * Changes))
    : M (list (gostring * option error)) :=
  match entries with
  | [] => ret []
  | (zoneName, c) :: entries' =>
      if HasChanges c then
        err <- applyChangesToZone c zoneName ;;
        rest <- zoneOutcomes entries' ;;
        ret ((zoneName, err) :: rest)
      else zoneOutcomes entries'
  end.

(** The first error among the outcomes. *)
Fixpoint firstError (outcomes : list (gostring * option error))
    : option error :=
  match outcomes with
  | [] => None
  | (_, Some e) :: _ => Some e
  | (_, None) :: outcomes' => firstError outcomes'
  end.

End Provider.

(** ** A client and an environment to run the operations on *)

(** A DNS host in memory. It holds one list of records and lists it for
    every zone; it refuses to list the zone [down.net] and to delete or
    edit the identifier 13. *)
Definition memClient : Client :=
  {| World := list Record_;
     ClientError := string;
     Ping := λ w, (None, w);
     RetrieveRecords := λ zone w,
       if bool_decide (zone = str "down.net") then (inl "zone is down", w)
       else (inr w, w);
     CreateRecord := λ zone record w, (inr 1, w ++ [record]);
     EditRecord := λ zone id record w,
       if bool_decide (id = 13) then (Some "edit refused", w) else (None, w);
     DeleteRecord := λ zone id w,
       if bool_decide (id = 13) then (Some "delete refused", w)
       else (None, filter (λ r, ID r ≠ Strconv.FormatInt id) w) |}.

(** [HasChanges] and [NewEndpointWithTTL] after external-dns, without the
    clean-up of names and targets; the map is visited in key order. *)
Definition testExternals : Externals :=
  {| HasChanges := λ c,
       negb (bool_decide (Create c = []) && bool_decide (Delete c = []))
       || negb (bool_decide (UpdateNew c = UpdateOld c));
     NewEndpointWithTTL := λ name type ttl targets,
       Some {| DNSName := name; Targets := targets; RecordType := type;
               RecordTTL := ttl |};
     rangeOrder := map_to_list;
     rangeOrder_perm := λ m, Permutation_refl (map_to_list m) |}.

(** The client in memory, except that it refuses to create a record
    named [bad]. *)
Definition pickyClient : Client :=
  {| World := list Record_;
     ClientError := string;
     Ping := @Ping memClient;
     RetrieveRecords := @RetrieveRecords memClient;
     CreateRecord := λ zone record w,
       if bool_decide (Name record = str "bad")
       then (inl "create refused", w) else (inr 1, w ++ [record]);
     EditRecord := @EditRecord memClient;
     DeleteRecord := @DeleteRecord memClient |}.

(** The environment above, with a constructor that returns nil for a name
    with a label of more than 63 bytes. *)
Definition labelCheckExternals : Externals :=
  {| HasChanges := @HasChanges testExternals;
     NewEndpointWithTTL := λ name type ttl targets,
       if forallb (λ label, bool_decide (length label ≤ 63)%nat)
            (Strings.Split name "."%char)
       then Some {| DNSName := name; Targets := targets; RecordType := type;
                    RecordTTL := ttl |}
       else None;
     rangeOrder := map_to_list;
     rangeOrder_perm := λ m, Permutation_refl (map_to_list m) |}.

Definition named (name : string) : Record_ :=
  {| ID := []; Name := str name; Type_ := str "A";
     Content := str "5.5.5.5"; TTL := str "600"; Prio := []; Notes := [] |}.

(** A record whose first label has 64 bytes. *)
Definition longLabelRecord : Record_ :=
  {| ID := str "12"; Name := replicate 64 "a"%char ++ str ".bar.org";
     Type_ := str "A"; Content := str "5.5.5.5"; TTL := str "abc";
     Prio := []; Notes := [] |}.

Definition withID (id : string) : Record_ :=
  {| ID := str id; Name := str "foo.bar.org"; Type_ := str "A";
     Content := str "5.5.5.5"; TTL := str "600"; Prio := []; Notes := [] |}.

Definition withTTL (name ttl : string) : Record_ :=
  {| ID := str "10"; Name := str name; Type_ := str "A";
     Content := str "5.5.5.5"; TTL := str ttl; Prio := []; Notes := [] |}.

(** The state before any call, with the given records at the host. *)
Definition initial (records : list Record_) : @State memClient :=
  {| world := (records : @World memClient); calls := [] |}.

(** ** Reference definitions used to state the properties *)

(** The query of the record matcher, as a predicate on one record. *)
Definition matchesQuery (recordName target recordType : gostring)
    (strict : bool) (rec : Record_) : bool :=
  bool_decide (Type_ rec = recordType)
  && bool_decide (Name rec = recordName)
  && (negb strict || bool_decide (Content rec = target)).

(** An endpoint with its targets cut down to the first one. *)
Definition firstTargetOnly (ep : Endpoint) : Endpoint :=
  {| DNSName := DNSName ep; Targets := take 1 (Targets ep);
     RecordType := RecordType ep; RecordTTL := RecordTTL ep |}.

(** Whether an update-old entry is filed in the suppressor's lookup under
    the key (DNS name, first target): a TXT entry with that name whose
    first target is the given one. *)
Definition filedUnder (name target : gostring) (old : Endpoint) : bool :=
  bool_decide (RecordType old = RecordTypeTXT)
  && bool_decide (head (Targets old) = Some target)
  && bool_decide (DNSName old = name).

(** The last entry of update-old filed under a key. *)
Fixpoint lastOld (updateOld : list Endpoint) (name target : gostring)
    : option Endpoint :=
  match updateOld with
  | [] => None
  | old :: updateOld' =>
      match lastOld updateOld' name target with
      | Some e => Some e
      | None => if filedUnder name target old then Some old else None
      end
  end.

(** A no-op update: a TXT entry with a target whose key's last update-old
    entry has the same TTL. *)
Definition isNoop (updateOld : list Endpoint) (ep : Endpoint) : bool :=
  bool_decide (RecordType ep = RecordTypeTXT)
  && match head (Targets ep) with
     | None => false
     | Some target =>
         match lastOld updateOld (DNSName ep) target with
         | Some old => bool_decide (RecordTTL old = RecordTTL ep)
         | None => false
         end
     end.

(** The criterion in the words of the specification: a TXT entry with a
    target for which some update-old TXT entry has the same name, the same
    first target and an equal TTL. *)
Definition someOldSame (updateOld : list Endpoint) (ep : Endpoint) : bool :=
  bool_decide (RecordType ep = RecordTypeTXT)
  && match head (Targets ep) with
     | None => false
     | Some target =>
         existsb (λ old, filedUnder (DNSName ep) target old
                         && bool_decide (RecordTTL old = RecordTTL ep))
           updateOld
     end.

(** ** Sample data, after the repository's tests *)

Definition txt (name value : string) (ttl : Z) : Endpoint :=
  {| DNSName := str name; Targets := [str value];
     RecordType := RecordTypeTXT; RecordTTL := ttl |}.

Definition aRecord (name value : string) (ttl : Z) : Endpoint :=
  {| DNSName := str name; Targets := [str value];
     RecordType := RecordTypeA; RecordTTL := ttl |}.

(** The batch of [testRemoveNoopTXTUpdates]. *)
Definition suppressionBatch : Changes :=
  {| Create := [];
     UpdateOld := [txt "txt-noop.example.com" "v=1" 300;
                   txt "txt-ttl.example.com" "v=1" 300;
                   txt "txt-target.example.com" "old" 300;
                   aRecord "a.example.com" "1.2.3.4" 300];
     UpdateNew := [txt "txt-noop.example.com" "v=1" 300;
                   txt "txt-ttl.example.com" "v=1" 600;
                   txt "txt-target.example.com" "new" 300;
                   txt "txt-orphan.example.com" "v=1" 300;
                   aRecord "a.example.com" "1.2.3.4" 300];
     Delete := [] |}.

(** Two update-old entries under one key, with different TTLs. *)
Definition twoOldBatch : Changes :=
  {| Create := [];
     UpdateOld := [txt "txt.example.com" "v=1" 300;
                   txt "txt.example.com" "v=1" 600];
     UpdateNew := [txt "txt.example.com" "v=1" 300];
     Delete := [] |}.

Definition epFoo : Endpoint :=
  {| DNSName := str "foo.bar.org"; Targets := [str "5.5.5.5"; str "6.6.6.6"];
     RecordType := RecordTypeA; RecordTTL := 600 |}.

Definition epApex : Endpoint :=
  {| DNSName := str "bar.org"; Targets := [str "5.5.5.5"];
     RecordType := RecordTypeA; RecordTTL := 600 |}.

Definition epNoTargets : Endpoint :=
  {| DNSName := str "api.bar.org"; Targets := [];
     RecordType := RecordTypeA; RecordTTL := 600 |}.

Definition heritageValue : gostring :=
  quote :: str "heritage=external-dns,external-dns/owner=default" ++ [quote].

Definition epHeritage : Endpoint :=
  {| DNSName := str "foo.baz.org"; Targets := [heritageValue];
     RecordType := RecordTypeTXT; RecordTTL := 600 |}.

(** A name below the label [bar.org] of the zone [bar.org]. *)
Definition epNested : Endpoint :=
  {| DNSName := str "bar.org.bar.org"; Targets := [str "5.5.5.5"];
     RecordType := RecordTypeA; RecordTTL := 600 |}.

(** A record as the API lists it, named by its full name. *)
Definition recFooListed : Record_ :=
  {| ID := str "10"; Name := str "foo.bar.org"; Type_ := str "A";
     Content := str "5.5.5.5"; TTL := str "600"; Prio := []; Notes := [] |}.

(** A record named relative to its zone. *)
Definition recFooRelative : Record_ :=
  {| ID := str "10"; Name := str "foo"; Type_ := str "A";
     Content := str "5.5.5.5"; TTL := str "600"; Prio := []; Notes := [] |}.

(** A provider for two zones, and a batch with one record to create in
    each of them. *)
Definition twoZones : PorkbunProvider :=
  {| domainFilter := [str "down.net"; str "bar.org"]; dryRun := false |}.

Definition twoZoneBatch : Changes :=
  {| Create := [aRecord "www.down.net" "1.1.1.1" 600;
                aRecord "www.bar.org" "2.2.2.2" 600];
     UpdateOld := []; UpdateNew := []; Delete := [] |}.

(** ** Further reference definitions *)

(** Whether two update-old entries are filed under one key of the
    suppressor's lookup. *)
Definition sameKey (o1 o2 : Endpoint) : bool :=
  match head (Targets o1) with
  | Some target => filedUnder (DNSName o1) target o1
                   && filedUnder (DNSName o1) target o2
  | None => false
  end.

(** Update-old entries filed under one key agree on the TTL. *)
Definition consistentOld (updateOld : list Endpoint) : bool :=
  forallb (λ o1,
    forallb (λ o2, negb (sameKey o1 o2)
                   || bool_decide (RecordTTL o1 = RecordTTL o2)) updateOld)
    updateOld.

(** The zone a client call is made on; the login names none. *)
Definition callZone (c : Call) : option gostring :=
  match c with
  | CallPing => None
  | CallRetrieveRecords zone => Some zone
  | CallCreateRecord zone _ => Some zone
  | CallEditRecord zone _ _ => Some zone
  | CallDeleteRecord zone _ => Some zone
  end.

(** The endpoints of a list that the zone matcher assigns to a zone. *)
Definition routedTo (filters : list gostring) (z : gostring)
    (eps : list Endpoint) : list Endpoint :=
  filter (λ ep, endpointZoneName ep filters = z) eps.

(** The part of a batch that belongs to a zone. *)
Definition bucketOf (filters : list gostring) (changes : Changes)
    (z : gostring) : Changes :=
  {| Create := routedTo filters z (Create changes);
     UpdateOld := routedTo filters z (UpdateOld changes);
     UpdateNew := routedTo filters z (UpdateNew changes);
     Delete := routedTo filters z (Delete changes) |}.

(** What one step of a routing loop does to the batch of the zone [z]. *)
Definition routeStep (filters : list gostring)
    (add : Endpoint → Changes → Changes) (z : gostring)
    (c : Changes) (ep : Endpoint) : Changes :=
  if decide (endpointZoneName ep filters = z ∧ z ≠ []) then add ep c else c.

(** All endpoints of a batch. *)
Definition allEndpoints (changes : Changes) : list Endpoint :=
  Create changes ++ UpdateOld changes ++ UpdateNew changes ++ Delete changes.

(** A batch whose only entry is an update that changes nothing, and a
    batch for a name outside the configured zones. *)
Definition noopBatch : Changes :=
  {| Create := [];
     UpdateOld := [txt "txt.bar.org" "v=1" 300];
     UpdateNew := [txt "txt.bar.org" "v=1" 300];
     Delete := [] |}.

Definition foreignBatch : Changes :=
  {| Create := [aRecord "www.other.com" "1.1.1.1" 600];
     UpdateOld := []; UpdateNew := []; Delete := [] |}.

(** A batch for the zone [bar.org]: one record to delete, one to create
    and one to update. *)
Definition mixedBatch : Changes :=
  {| Create := [aRecord "new.bar.org" "1.1.1.1" 600];
     UpdateOld := [aRecord "foo.bar.org" "5.5.5.5" 300];
     UpdateNew := [aRecord "foo.bar.org" "5.5.5.5" 600];
     Delete := [aRecord "old.bar.org" "7.7.7.7" 600] |}.

Definition recOld : Record_ :=
  {| ID := str "11"; Name := str "old.bar.org"; Type_ := str "A";
     Content := str "7.7.7.7"; TTL := str "600"; Prio := []; Notes := [] |}.

(** The number a decimal numeral denotes, read from the left with the
    digits read so far in [n]. *)
Fixpoint uintValue (d : Decimal.uint) (n : Z) : Z :=
  match d with
  | Decimal.Nil => n
  | Decimal.D0 d' => uintValue d' (n * 10)
  | Decimal.D1 d' => uintValue d' (n * 10 + 1)
  | Decimal.D2 d' => uintValue d' (n * 10 + 2)
  | Decimal.D3 d' => uintValue d' (n * 10 + 3)
  | Decimal.D4 d' => uintValue d' (n * 10 + 4)
  | Decimal.D5 d' => uintValue d' (n * 10 + 5)
  | Decimal.D6 d' => uintValue d' (n * 10 + 6)
  | Decimal.D7 d' => uintValue d' (n * 10 + 7)
  | Decimal.D8 d' => uintValue d' (n * 10 + 8)
  | Decimal.D9 d' => uintValue d' (n * 10 + 9)
  end.

(** * Facts about the string functions *)

Lemma HasSuffix_spec (s suffix : gostring) :
  Strings.HasSuffix s suffix = true ↔ suffix `suffix_of` s.
Proof.
  unfold Strings.HasSuffix. rewrite andb_true_iff, !bool_decide_eq_true.
  split.
  - intros [_ Hd]. exists (take (length s - length suffix) s).
    transitivity (take (length s - length suffix) s
                  ++ drop (length s - length suffix) s).
    + by rewrite take_drop.
    + by rewrite Hd.
  - intros [k ->]. rewrite length_app. split; [lia|].
    replace (length k + length suffix - length suffix)%nat
      with (length k) by lia.
    by rewrite drop_app_length.
Qed.

Lemma HasPrefix_spec (s prefix : gostring) :
  Strings.HasPrefix s prefix = true ↔ prefix `prefix_of` s.
Proof.
  unfold Strings.HasPrefix. rewrite andb_true_iff, !bool_decide_eq_true.
  split.
  - intros [_ Ht]. exists (drop (length prefix) s).
    transitivity (take (length prefix) s ++ drop (length prefix) s).
    + by rewrite take_drop.
    + by rewrite Ht.
  - intros [k ->]. rewrite length_app. split; [lia|].
    by rewrite take_app_length.
Qed.

Lemma TrimSuffix_app (x suffix : gostring) :
  Strings.TrimSuffix (x ++ suffix) suffix = x.
Proof.
  unfold Strings.TrimSuffix.
  assert (Hs : Strings.HasSuffix (x ++ suffix) suffix = true)
    by (apply HasSuffix_spec; by exists x).
  rewrite Hs, length_app.
  replace (length x + length suffix - length suffix)%nat
    with (length x) by lia.
  by rewrite take_app_length.
Qed.

Lemma TrimSuffix_no_suffix (s suffix : gostring) :
  ¬ suffix `suffix_of` s → Strings.TrimSuffix s suffix = s.
Proof.
  intros Hn. unfold Strings.TrimSuffix.
  destruct (Strings.HasSuffix s suffix) eqn:E; [|done].
  by apply HasSuffix_spec in E.
Qed.

(** [strconv] on sample values. *)
Example Atoi_samples :
  Strconv.Atoi (str "600") = inr 600
  ∧ Strconv.Atoi (str "-12") = inr (-12)
  ∧ Strconv.Atoi (str "+7") = inr 7
  ∧ Strconv.Atoi (str "") = inl Strconv.ErrSyntax
  ∧ Strconv.Atoi (str "-") = inl Strconv.ErrSyntax
  ∧ Strconv.Atoi (str "12a") = inl Strconv.ErrSyntax
  ∧ Strconv.Atoi (str "1_000") = inl Strconv.ErrSyntax
  ∧ Strconv.Atoi (str "9223372036854775807") = inr (2 ^ 63 - 1)
  ∧ Strconv.Atoi (str "9223372036854775808") = inl Strconv.ErrRange
  ∧ Strconv.Atoi (str "-9223372036854775808") = inr (- 2 ^ 63).
Proof. vm_compute. done. Qed.

Example FormatInt_samples :
  Strconv.FormatInt 600 = str "600"
  ∧ Strconv.FormatInt 0 = str "0"
  ∧ Strconv.FormatInt (-5) = str "-5".
Proof. vm_compute. done. Qed.

Example Split_sample :
  Strings.Split (str "@.foo.") "."%char = [str "@"; str "foo"; str ""].
Proof. reflexivity. Qed.

(** * The zone matcher *)

Lemma suffix_same_length (a b s : gostring) :
  a `suffix_of` s → b `suffix_of` s → length a = length b → a = b.
Proof.
  intros [ka ->] [kb Hb] Hlen.
  assert (length ka = length kb).
  { apply (f_equal length) in Hb. rewrite !length_app in Hb. lia. }
  by apply app_inj_1 in Hb as [_ ->].
Qed.

(** The loop keeps as accumulator a longest matching zone seen so far. *)
Lemma endpointZoneName_loop_spec (name : gostring) (zones : list gostring) :
  ∀ acc : gostring,
    let r := endpointZoneName_loop name acc zones in
    (r = acc ∨ (r ∈ zones ∧ r `suffix_of` name))
    ∧ (length acc ≤ length r)%nat
    ∧ (∀ z, z ∈ zones → z `suffix_of` name → length z ≤ length r)%nat.
Proof.
  induction zones as [|zoneName zones IH]; intros acc; simpl.
  - split; [by left|]. split; [lia|]. intros z Hz. by apply elem_of_nil in Hz.
  - destruct (Strings.HasSuffix name zoneName) eqn:Hs; simpl.
    + case_bool_decide as Hlen.
      * destruct (IH zoneName) as (Hr & Hacc & Hmax).
        split; [|split].
        -- right. destruct Hr as [->|[Hin Hsuf]].
           ++ split; [left|]. by apply HasSuffix_spec.
           ++ split; [by right|done].
        -- lia.
        -- intros z Hz Hsuf. apply elem_of_cons in Hz as [->|Hz]; [lia|eauto].
      * destruct (IH acc) as (Hr & Hacc & Hmax).
        split; [|split].
        -- destruct Hr as [->|[Hin Hsuf]]; [by left|].
           right. split; [by right|done].
        -- done.
        -- intros z Hz Hsuf. apply elem_of_cons in Hz as [->|Hz]; [lia|eauto].
    + destruct (IH acc) as (Hr & Hacc & Hmax).
      split; [|split].
      * destruct Hr as [->|[Hin Hsuf]]; [by left|].
        right. split; [by right|done].
      * done.
      * intros z Hz Hsuf. apply elem_of_cons in Hz as [->|Hz]; [|eauto].
        apply HasSuffix_spec in Hsuf. congruence.
Qed.

(** A zone the matcher returns, if not empty, is one of the list. *)
Lemma endpointZoneName_elem_of (e : Endpoint) (zones : list gostring) :
  endpointZoneName e zones ≠ [] →
  endpointZoneName e zones ∈ zones
  ∧ endpointZoneName e zones `suffix_of` DNSName e.
Proof.
  intros Hne. unfold endpointZoneName in *.
  destruct (endpointZoneName_loop_spec (DNSName e) zones []) as ([Hr|Hr] & _);
    [done|exact Hr].
Qed.

(** C2. For every DNS name and every list of zones, the zone matcher
    returns the longest zone of the list that is a plain string suffix of
    the name (equality counts as a match), and the empty string when no
    zone of the list is a suffix of the name. The longest matching zone is
    unique: a matching zone as long as the result is the result. *)
Theorem endpointZoneName_longest_suffix (e : Endpoint)
    (zones : list gostring) :
  let r := endpointZoneName e zones in
  ((∃ z, z ∈ zones ∧ z `suffix_of` DNSName e) →
     r ∈ zones ∧ r `suffix_of` DNSName e
     ∧ (∀ z, z ∈ zones → z `suffix_of` DNSName e →
          (length z ≤ length r)%nat ∧ (length z = length r → z = r)))
  ∧ ((∀ z, z ∈ zones → ¬ z `suffix_of` DNSName e) → r = [])
  ∧ (DNSName e ∈ zones → DNSName e ≠ [] → r = DNSName e).
Proof.
  intros r. subst r. unfold endpointZoneName.
  destruct (endpointZoneName_loop_spec (DNSName e) zones [])
    as (Hr & _ & Hmax).
  set (r := endpointZoneName_loop (DNSName e) [] zones) in *.
  assert (Hsome : (∃ z, z ∈ zones ∧ z `suffix_of` DNSName e) →
                  r ∈ zones ∧ r `suffix_of` DNSName e).
  { intros (z & Hz & Hsuf). destruct Hr as [Hr|Hr]; [|done].
    specialize (Hmax z Hz Hsuf). rewrite Hr in Hmax. simpl in Hmax.
    assert (z = []) as -> by (destruct z; [done|simpl in Hmax; lia]).
    rewrite Hr. split; [done|]. apply suffix_nil. }
  split; [|split].
  - intros Hex. destruct (Hsome Hex) as [Hin Hsuf].
    split; [done|]. split; [done|]. intros z Hz Hzs.
    split; [by apply Hmax|]. intros Hlen.
    by apply (suffix_same_length z r (DNSName e)).
  - intros Hnone. destruct Hr as [Hr|[Hin Hsuf]]; [done|].
    by destruct (Hnone r Hin).
  - intros Hin Hne.
    destruct (Hsome (ex_intro _ (DNSName e) (conj Hin (reflexivity _))))
      as [_ Hsuf].
    specialize (Hmax (DNSName e) Hin (reflexivity _)).
    apply (suffix_same_length r (DNSName e) (DNSName e)); [done|done|].
    apply suffix_length in Hsuf. lia.
Qed.

(** * The record matcher *)

Lemma getIDforRecord_step (recordName target recordType : gostring)
    (rec : Record_) (recs : list Record_) (strict : bool) :
  getIDforRecord recordName target recordType (rec :: recs) strict =
    if matchesQuery recordName target recordType strict rec then ID rec
    else getIDforRecord recordName target recordType recs strict.
Proof.
  simpl. unfold matchesQuery.
  repeat case_bool_decide; destruct strict; simpl; congruence.
Qed.

(** C3. The record matcher returns the identifier of the first record, in
    the order of the list, whose type and name equal the requested ones
    and, when the strict flag is set, whose content equals the target; it
    returns the empty string when no record matches. *)
Theorem getIDforRecord_first_match (recordName target recordType : gostring)
    (recs : list Record_) (strict : bool) :
  (∀ pre rec post,
     recs = pre ++ rec :: post →
     Forall (λ r, matchesQuery recordName target recordType strict r = false)
       pre →
     matchesQuery recordName target recordType strict rec = true →
     getIDforRecord recordName target recordType recs strict = ID rec)
  ∧ (Forall (λ r, matchesQuery recordName target recordType strict r = false)
       recs →
     getIDforRecord recordName target recordType recs strict = [])
  ∧ (∀ rec, matchesQuery recordName target recordType strict rec = true ↔
       Type_ rec = recordType ∧ Name rec = recordName
       ∧ (strict = true → Content rec = target)).
Proof.
  split; [|split].
  - intros pre rec post -> Hpre Hrec.
    induction Hpre as [|r pre Hr _ IH].
    + simpl app. by rewrite getIDforRecord_step, Hrec.
    + change ((r :: pre) ++ rec :: post) with (r :: (pre ++ rec :: post)).
      by rewrite getIDforRecord_step, Hr.
  - induction 1 as [|r l Hr _ IH]; [done|].
    by rewrite getIDforRecord_step, Hr.
  - intros rec. unfold matchesQuery.
    rewrite !andb_true_iff, orb_true_iff, !bool_decide_eq_true.
    destruct strict; simpl; intuition congruence.
Qed.

(** * Trimming *)

Lemma TrimLeft_replicate_app (k : nat) (c : ascii) (s : gostring) :
  Strings.TrimLeft (replicate k c ++ s) [c] = Strings.TrimLeft s [c].
Proof.
  induction k as [|k IH]; [done|]. simpl. unfold Strings.inCutset.
  rewrite bool_decide_eq_true_2; [done|]. by apply list_elem_of_singleton.
Qed.

Lemma TrimLeft_head_ne (c : ascii) (s : gostring) :
  head s ≠ Some c → Strings.TrimLeft s [c] = s.
Proof.
  destruct s as [|x s]; [done|]. simpl. intros Hx. unfold Strings.inCutset.
  rewrite bool_decide_eq_false_2; [done|].
  rewrite list_elem_of_singleton. congruence.
Qed.

Lemma TrimLeft_app_head_ne (c : ascii) (a b : gostring) :
  head b ≠ Some c →
  Strings.TrimLeft (a ++ b) [c] = Strings.TrimLeft a [c] ++ b.
Proof.
  intros Hb. induction a as [|x a IH]; simpl.
  - by apply TrimLeft_head_ne.
  - destruct (Strings.inCutset [c] x); [exact IH|done].
Qed.

Lemma TrimLeft_spec (c : ascii) (s : gostring) :
  ∃ k, s = replicate k c ++ Strings.TrimLeft s [c]
       ∧ head (Strings.TrimLeft s [c]) ≠ Some c.
Proof.
  induction s as [|x s (k & Hk & Hh)]; simpl.
  - by exists 0%nat.
  - unfold Strings.inCutset. case_bool_decide as Hx.
    + apply list_elem_of_singleton in Hx as ->.
      exists (S k). simpl. split; [by rewrite <- Hk|done].
    + exists 0%nat. split; [done|]. simpl. intros [= ->].
      apply Hx. by apply list_elem_of_singleton.
Qed.

Lemma TrimRight_spec (c : ascii) (s : gostring) :
  ∃ k, s = Strings.TrimRight s [c] ++ replicate k c
       ∧ last (Strings.TrimRight s [c]) ≠ Some c.
Proof.
  unfold Strings.TrimRight.
  destruct (TrimLeft_spec c (reverse s)) as (k & Hk & Hh).
  exists k. split.
  - apply (f_equal reverse) in Hk.
    rewrite reverse_involutive, reverse_app, reverse_replicate in Hk.
    exact Hk.
  - by rewrite last_reverse.
Qed.

Lemma TrimRight_app_last_ne (c : ascii) (p rest : gostring) :
  last p ≠ Some c →
  Strings.TrimRight (p ++ rest) [c] = p ++ Strings.TrimRight rest [c].
Proof.
  intros Hp. unfold Strings.TrimRight.
  rewrite reverse_app, TrimLeft_app_head_ne.
  - by rewrite reverse_app, reverse_involutive.
  - by rewrite head_reverse.
Qed.

Lemma TrimRight_app_replicate (c : ascii) (a : gostring) (k : nat) :
  last a ≠ Some c → Strings.TrimRight (a ++ replicate k c) [c] = a.
Proof.
  intros Ha. unfold Strings.TrimRight.
  rewrite reverse_app, reverse_replicate, TrimLeft_replicate_app.
  rewrite TrimLeft_head_ne; [apply reverse_involutive|].
  by rewrite head_reverse.
Qed.

(** * The converter *)

Lemma convertToPorkbunRecord_app (recs : list Record_)
    (eps1 eps2 : list Endpoint) (zoneName : gostring) (strict : bool) :
  convertToPorkbunRecord recs (eps1 ++ eps2) zoneName strict =
    convertToPorkbunRecord recs eps1 zoneName strict
    ++ convertToPorkbunRecord recs eps2 zoneName strict.
Proof.
  induction eps1 as [|ep eps1 IH]; [done|].
  simpl. destruct (Targets ep); [exact IH|]. by rewrite IH.
Qed.

Lemma recordNameOf_apex (zoneName : gostring) : recordNameOf zoneName zoneName = [].
Proof. unfold recordNameOf. by rewrite bool_decide_eq_true_2. Qed.

Lemma recordNameOf_sub (x zoneName : gostring) :
  recordNameOf (x ++ str "." ++ zoneName) zoneName = x.
Proof.
  unfold recordNameOf. rewrite bool_decide_eq_false_2.
  - apply TrimSuffix_app.
  - intros Heq. apply (f_equal length) in Heq.
    rewrite !length_app in Heq. simpl in Heq. lia.
Qed.

Lemma recordNameOf_other (fqdn zoneName : gostring) :
  fqdn ≠ zoneName → ¬ (str "." ++ zoneName) `suffix_of` fqdn →
  recordNameOf fqdn zoneName = fqdn.
Proof.
  intros Hne Hns. unfold recordNameOf. rewrite bool_decide_eq_false_2; [|done].
  by apply TrimSuffix_no_suffix.
Qed.

Lemma contentOf_spec (recordType target : gostring) :
  contentOf recordType target =
    if decide (recordType = RecordTypeTXT ∧ heritagePrefix `prefix_of` target)
    then Strings.Trim target [quote] else target.
Proof.
  unfold contentOf.
  destruct (Strings.HasPrefix target heritagePrefix) eqn:Hp.
  - apply HasPrefix_spec in Hp.
    case_bool_decide; case_decide; simpl; tauto.
  - rewrite andb_false_r. case_decide as Hd; [|done].
    destruct Hd as [_ Hd]. apply HasPrefix_spec in Hd. congruence.
Qed.

(** The content of a heritage value: the leading quote and all trailing
    quotes are gone, what is between them is kept. *)
Lemma Trim_heritage (rest : gostring) :
  Strings.Trim (heritagePrefix ++ rest) [quote] =
    str "heritage=" ++ Strings.TrimRight rest [quote].
Proof.
  unfold Strings.Trim. rewrite TrimRight_app_last_ne; [done|].
  vm_compute. discriminate.
Qed.

(** The test [testConvertToPorkbunRecord]: [foo.bar.org] in zone [bar.org],
    with the listed record found by its full name. *)
Example convert_foo :
  convertToPorkbunRecord [recFooListed] [epFoo] (str "bar.org") false =
    [recFooRelative].
Proof. reflexivity. Qed.

Example convert_apex_name :
  Name <$> convertToPorkbunRecord [] [epApex] (str "bar.org") false = [[]].
Proof. reflexivity. Qed.

(** C1, as stated, fails on a TXT endpoint that carries the ownership
    marker: the content of the record is not the first target value. *)
Lemma convert_content_is_not_first_target :
  Targets epHeritage = [heritageValue]
  ∧ Content <$> convertToPorkbunRecord [] [epHeritage] (str "baz.org") false
    = [str "heritage=external-dns,external-dns/owner=default"]
  ∧ str "heritage=external-dns,external-dns/owner=default" ≠ heritageValue
  ∧ ¬ (∀ recs ep zoneName strict target rest,
         Targets ep = target :: rest →
         ∃ r, convertToPorkbunRecord recs [ep] zoneName strict = [r]
              ∧ Content r = target).
Proof.
  split; [reflexivity|]. split; [reflexivity|]. split; [discriminate|].
  intros Hclaim.
  destruct (Hclaim [] epHeritage (str "baz.org") false heritageValue []
              eq_refl) as (r & Hr & Hc).
  vm_compute in Hr. injection Hr as <-. vm_compute in Hc. discriminate.
Qed.

(** C1 (amended). Inside any list of endpoints each endpoint is converted
    on its own. An endpoint without targets yields no record. An endpoint
    with targets yields exactly one record: its name is empty when the
    DNS name is the zone, the DNS name without its [.zone] suffix when it
    has one, and the DNS name otherwise; its content is the first target,
    except for a TXT value that starts with the quoted heritage marker,
    whose quotes are trimmed at both ends; its TTL is the decimal string of
    the endpoint's TTL; the targets after the first do not matter. *)
Theorem convertToPorkbunRecord_endpoint (recs : list Record_)
    (pre post : list Endpoint) (ep : Endpoint) (zoneName : gostring)
    (strict : bool) :
  convertToPorkbunRecord recs (pre ++ ep :: post) zoneName strict =
    convertToPorkbunRecord recs pre zoneName strict
    ++ convertToPorkbunRecord recs [ep] zoneName strict
    ++ convertToPorkbunRecord recs post zoneName strict
  ∧ match Targets ep with
    | [] => convertToPorkbunRecord recs [ep] zoneName strict = []
    | target :: _ =>
        ∃ r, convertToPorkbunRecord recs [ep] zoneName strict = [r]
          ∧ (DNSName ep = zoneName → Name r = [])
          ∧ (∀ x, DNSName ep = x ++ str "." ++ zoneName → Name r = x)
          ∧ (DNSName ep ≠ zoneName →
             ¬ (str "." ++ zoneName) `suffix_of` DNSName ep →
             Name r = DNSName ep)
          ∧ Content r =
              (if decide (RecordType ep = RecordTypeTXT
                          ∧ heritagePrefix `prefix_of` target)
               then Strings.Trim target [quote] else target)
          ∧ TTL r = Strconv.FormatInt (RecordTTL ep)
          ∧ Type_ r = RecordType ep
          ∧ convertToPorkbunRecord recs [firstTargetOnly ep] zoneName strict
            = [r]
    end.
Proof.
  split.
  - rewrite convertToPorkbunRecord_app.
    change (ep :: post) with ([ep] ++ post).
    by rewrite convertToPorkbunRecord_app.
  - destruct (Targets ep) as [|target rest] eqn:Ht; simpl; rewrite Ht; [done|].
    eexists. split; [reflexivity|]. simpl.
    split; [|split; [|split; [|split; [|split; [|split]]]]].
    + intros ->. apply recordNameOf_apex.
    + intros x ->. apply recordNameOf_sub.
    + apply recordNameOf_other.
    + apply contentOf_spec.
    + done.
    + done.
    + done.
Qed.

(** C6, as stated, fails: [bar.org.bar.org] belongs to the zone [bar.org]
    and its record is named [bar.org], which ends with the zone. *)
Lemma record_name_may_end_with_zone :
  endpointZoneName epNested [str "bar.org"] = str "bar.org"
  ∧ Name <$> convertToPorkbunRecord [] [epNested] (str "bar.org") false
    = [str "bar.org"]
  ∧ Strings.HasSuffix (str "bar.org") (str "bar.org") = true
  ∧ ¬ (∀ ep zones recs strict target rest r,
         Targets ep = target :: rest →
         endpointZoneName ep zones ≠ [] →
         convertToPorkbunRecord recs [ep] (endpointZoneName ep zones) strict
           = [r] →
         ¬ endpointZoneName ep zones `suffix_of` Name r).
Proof.
  split; [reflexivity|]. split; [reflexivity|]. split; [reflexivity|].
  intros Hclaim.
  eapply (Hclaim epNested [str "bar.org"] [] false); [done|done|done|].
  by exists [].
Qed.

(** C6 (amended). For an endpoint that the zone matcher assigns to a zone
    and whose DNS name is the zone or ends with a dot and the zone, the
    name of the record is the DNS name with that suffix removed once: it
    is empty at the apex, and otherwise the name, a dot and the zone spell
    the DNS name. *)
Theorem record_name_strips_zone_once (ep : Endpoint) (zones : list gostring)
    (recs : list Record_) (strict : bool) (target : gostring)
    (rest : list gostring) (zoneName : gostring) :
  endpointZoneName ep zones = zoneName →
  zoneName ≠ [] →
  Targets ep = target :: rest →
  DNSName ep = zoneName ∨ (str "." ++ zoneName) `suffix_of` DNSName ep →
  zoneName ∈ zones
  ∧ ∃ r, convertToPorkbunRecord recs [ep] zoneName strict = [r]
      ∧ (DNSName ep = zoneName ∧ Name r = []
         ∨ DNSName ep = Name r ++ str "." ++ zoneName).
Proof.
  intros Hz Hne Ht Hname. split.
  - subst zoneName. by apply endpointZoneName_elem_of.
  - simpl. rewrite Ht. eexists. split; [reflexivity|]. simpl.
    destruct Hname as [->|[x Hx]].
    + left. split; [done|]. apply recordNameOf_apex.
    + right. rewrite Hx at 1. rewrite Hx. by rewrite recordNameOf_sub.
Qed.

Lemma record_name_strips_zone_once_witness :
  str "bar.org" ∈ [str "bar.org"; str "baz.org"]
  ∧ ∃ r, convertToPorkbunRecord [recFooListed] [epFoo] (str "bar.org") false
         = [r]
      ∧ (DNSName epFoo = str "bar.org" ∧ Name r = []
         ∨ DNSName epFoo = Name r ++ str "." ++ str "bar.org").
Proof.
  apply (record_name_strips_zone_once epFoo [str "bar.org"; str "baz.org"]
           [recFooListed] false (str "5.5.5.5") [str "6.6.6.6"]).
  - reflexivity.
  - discriminate.
  - reflexivity.
  - right. by exists (str "foo").
Defined.

(** C7, as stated, fails: the record listed under the relative name [foo]
    is what a query by the emitted name would find, and the converter
    does not find it. *)
Lemma convert_id_not_by_relative_name :
  convertToPorkbunRecord [recFooRelative] [epFoo] (str "bar.org") false
  = [{| ID := []; Name := str "foo"; Type_ := str "A";
        Content := str "5.5.5.5"; TTL := str "600"; Prio := []; Notes := [] |}]
  ∧ getIDforRecord (str "foo") (str "5.5.5.5") (str "A") [recFooRelative]
      false = str "10"
  ∧ ¬ (∀ recs ep zoneName strict target rest r,
         Targets ep = target :: rest →
         convertToPorkbunRecord recs [ep] zoneName strict = [r] →
         ID r = getIDforRecord (Name r) (Content r) (Type_ r) recs strict).
Proof.
  split; [reflexivity|]. split; [reflexivity|].
  intros Hclaim.
  specialize (Hclaim [recFooRelative] epFoo (str "bar.org") false
                _ _ _ eq_refl eq_refl).
  vm_compute in Hclaim. discriminate.
Qed.

(** C7 (amended). The converter resolves the identifier by querying the
    record matcher with the endpoint's fully-qualified DNS name, together
    with the emitted content, the endpoint's type and the strict flag; the
    zone-relative name is only written into the record. *)
Theorem convert_id_by_fqdn (recs : list Record_) (ep : Endpoint)
    (zoneName : gostring) (strict : bool) (target : gostring)
    (rest : list gostring) :
  Targets ep = target :: rest →
  ∃ r, convertToPorkbunRecord recs [ep] zoneName strict = [r]
    ∧ ID r = getIDforRecord (DNSName ep) (Content r) (RecordType ep) recs
               strict
    ∧ Name r = recordNameOf (DNSName ep) zoneName.
Proof.
  intros Ht. simpl. rewrite Ht. eexists. split; [reflexivity|]. done.
Qed.

Lemma convert_id_by_fqdn_witness :
  ∃ r, convertToPorkbunRecord [recFooListed] [epFoo] (str "bar.org") false
       = [r]
    ∧ ID r = getIDforRecord (DNSName epFoo) (Content r) (RecordType epFoo)
               [recFooListed] false
    ∧ Name r = recordNameOf (DNSName epFoo) (str "bar.org").
Proof.
  apply (convert_id_by_fqdn [recFooListed] epFoo (str "bar.org") false
           (str "5.5.5.5") [str "6.6.6.6"]).
  reflexivity.
Defined.

Lemma last_heritage_app (x : gostring) :
  last x ≠ Some quote → last (str "heritage=" ++ x) ≠ Some quote.
Proof.
  intros Hx. rewrite last_app. destruct (last x) as [y|] eqn:Hy; [done|].
  vm_compute. discriminate.
Qed.

(** The test [testConvertToPorkbunRecord]: the quotes around the ownership
    marker are gone. *)
Example convert_heritage :
  Content <$> convertToPorkbunRecord [] [epHeritage] (str "bar.org") false =
    [str "heritage=external-dns,external-dns/owner=default"].
Proof. reflexivity. Qed.

(** C8. For a TXT endpoint whose first target starts with the quoted
    heritage marker, the content of the record is that value without the
    quote in front and without the quotes at its end: for a value wrapped
    in one pair of quotes, what is between them. For every other endpoint
    (another type, or a first target that does not start with the quoted
    marker) the content is the first target, unchanged. *)
Theorem convert_heritage_content (recs : list Record_) (ep : Endpoint)
    (zoneName : gostring) (strict : bool) (target : gostring)
    (rest : list gostring) :
  Targets ep = target :: rest →
  ∃ r, convertToPorkbunRecord recs [ep] zoneName strict = [r]
    ∧ (RecordType ep = RecordTypeTXT → heritagePrefix `prefix_of` target →
         (∃ k, target = quote :: Content r ++ replicate k quote)
         ∧ str "heritage=" `prefix_of` Content r
         ∧ last (Content r) ≠ Some quote
         ∧ (∀ body, target = quote :: body ++ [quote] →
              last body ≠ Some quote → Content r = body))
    ∧ (RecordType ep ≠ RecordTypeTXT ∨ ¬ heritagePrefix `prefix_of` target →
         Content r = target).
Proof.
  intros Ht. simpl. rewrite Ht. eexists. split; [reflexivity|]. simpl.
  rewrite contentOf_spec. split.
  - intros Htxt [tail ->]. rewrite decide_True by (split; [done|by exists tail]).
    rewrite Trim_heritage.
    destruct (TrimRight_spec quote tail) as (k & Hk & Hlast).
    assert (Hdecomp : heritagePrefix ++ tail =
              quote :: (str "heritage=" ++ Strings.TrimRight tail [quote])
                ++ replicate k quote).
    { rewrite Hk at 1. unfold heritagePrefix. done. }
    split; [by exists k|]. split; [by eexists|].
    split; [by apply last_heritage_app|].
    intros body Hbody Hlb.
    assert (Hb : (str "heritage=" ++ Strings.TrimRight tail [quote])
                   ++ replicate k quote = body ++ replicate 1 quote).
    { rewrite Hdecomp in Hbody. by injection Hbody. }
    apply (f_equal (λ s, Strings.TrimRight s [quote])) in Hb.
    rewrite !TrimRight_app_replicate in Hb; [done|done|].
    by apply last_heritage_app.
  - intros Hother. rewrite decide_False; [done|]. tauto.
Qed.

Lemma convert_heritage_content_witness :
  ∃ r, convertToPorkbunRecord [] [epHeritage] (str "baz.org") false = [r]
    ∧ (RecordType epHeritage = RecordTypeTXT →
       heritagePrefix `prefix_of` heritageValue →
         (∃ k, heritageValue = quote :: Content r ++ replicate k quote)
         ∧ str "heritage=" `prefix_of` Content r
         ∧ last (Content r) ≠ Some quote
         ∧ (∀ body, heritageValue = quote :: body ++ [quote] →
              last body ≠ Some quote → Content r = body))
    ∧ (RecordType epHeritage ≠ RecordTypeTXT
       ∨ ¬ heritagePrefix `prefix_of` heritageValue →
         Content r = heritageValue).
Proof.
  apply (convert_heritage_content [] epHeritage (str "baz.org") false
           heritageValue []).
  reflexivity.
Defined.

(** * The no-op suppressor *)

(** The lookup built by the first loop holds, for every key, the last
    update-old entry filed under it. *)
Lemma buildOldMap_lookup (updateOld : list Endpoint) :
  ∀ (oldMap : gmap (gostring * gostring) Endpoint) (name target : gostring),
    buildOldMap oldMap updateOld !! (name, target) =
      match lastOld updateOld name target with
      | Some e => Some e
      | None => oldMap !! (name, target)
      end.
Proof.
  induction updateOld as [|ep updateOld IH]; intros oldMap name target;
    [done|].
  simpl. unfold filedUnder.
  case_bool_decide as Htxt; simpl.
  - rewrite IH. rewrite (bool_decide_eq_false_2 (RecordType ep = _)) by done.
    simpl. by destruct (lastOld updateOld name target).
  - rewrite (bool_decide_eq_true_2 (RecordType ep = _)) by done. simpl.
    destruct (Targets ep) as [|target0 rest] eqn:Ht; simpl.
    + rewrite IH. by destruct (lastOld updateOld name target).
    + rewrite IH. destruct (lastOld updateOld name target); [done|].
      destruct (decide ((DNSName ep, target0) = (name, target))) as [Heq|Hne].
      * injection Heq as <- <-. rewrite lookup_insert_eq.
        by rewrite !bool_decide_eq_true_2.
      * rewrite lookup_insert_ne by done.
        repeat case_bool_decide; simpl; congruence.
Qed.

Lemma filterUpdateNew_cons (updateOld updateNew : list Endpoint)
    (ep : Endpoint) :
  filterUpdateNew (buildOldMap ∅ updateOld) (ep :: updateNew) =
    if isNoop updateOld ep
    then filterUpdateNew (buildOldMap ∅ updateOld) updateNew
    else ep :: filterUpdateNew (buildOldMap ∅ updateOld) updateNew.
Proof.
  simpl. unfold isNoop.
  case_bool_decide as Htxt; simpl.
  - by rewrite (bool_decide_eq_false_2 (RecordType ep = _)).
  - rewrite (bool_decide_eq_true_2 (RecordType ep = _)) by done. simpl.
    destruct (Targets ep) as [|target0 rest] eqn:Ht; simpl; [done|].
    rewrite buildOldMap_lookup, lookup_empty.
    by destruct (lastOld updateOld (DNSName ep) target0).
Qed.

Lemma filterUpdateNew_spec (updateOld updateNew : list Endpoint) :
  filterUpdateNew (buildOldMap ∅ updateOld) updateNew =
    filter (λ ep, isNoop updateOld ep = false) updateNew.
Proof.
  induction updateNew as [|ep updateNew IH]; [done|].
  rewrite filterUpdateNew_cons, filter_cons, IH.
  destruct (isNoop updateOld ep); [by rewrite decide_False|].
  by rewrite decide_True.
Qed.

Lemma lastOld_None (updateOld : list Endpoint) (name target : gostring) :
  lastOld updateOld name target = None ↔
  Forall (λ e, filedUnder name target e = false) updateOld.
Proof.
  induction updateOld as [|e updateOld IH]; simpl.
  - split; [by constructor|done].
  - rewrite Forall_cons, <- IH.
    destruct (lastOld updateOld name target).
    + split; [done|]. by intros [_ ?].
    + destruct (filedUnder name target e); [|done].
      split; [done|]. by intros [? _].
Qed.

Lemma lastOld_app (l1 l2 : list Endpoint) (name target : gostring) :
  lastOld (l1 ++ l2) name target =
    match lastOld l2 name target with
    | Some e => Some e
    | None => lastOld l1 name target
    end.
Proof.
  induction l1 as [|e l1 IH]; simpl.
  - by destruct (lastOld l2 name target).
  - rewrite IH. by destruct (lastOld l2 name target).
Qed.

Lemma lastOld_spec (updateOld : list Endpoint) (name target : gostring)
    (old : Endpoint) :
  lastOld updateOld name target = Some old ↔
  ∃ pre post, updateOld = pre ++ old :: post
    ∧ filedUnder name target old = true
    ∧ Forall (λ e, filedUnder name target e = false) post.
Proof.
  split.
  - revert old. induction updateOld as [|e updateOld IH]; intros old;
      simpl; [done|].
    destruct (lastOld updateOld name target) as [e'|] eqn:Hl.
    + intros [= <-]. destruct (IH e' eq_refl) as (pre & post & -> & Hf & Hp).
      by exists (e :: pre), post.
    + destruct (filedUnder name target e) eqn:Hf; [|done].
      intros [= <-]. exists [], updateOld.
      split; [done|]. split; [done|]. by apply lastOld_None.
  - intros (pre & post & -> & Hf & Hpost).
    rewrite lastOld_app. simpl.
    apply lastOld_None in Hpost. by rewrite Hpost, Hf.
Qed.

(** The test [testRemoveNoopTXTUpdates]: the unchanged entry goes, the
    other four stay, in their order. *)
Example removeNoop_suppressionBatch :
  UpdateNew (removeNoopTXTUpdates suppressionBatch) =
    [txt "txt-ttl.example.com" "v=1" 600;
     txt "txt-target.example.com" "new" 300;
     txt "txt-orphan.example.com" "v=1" 300;
     aRecord "a.example.com" "1.2.3.4" 300].
Proof. vm_compute. reflexivity. Qed.

(** C4, as stated, fails when update-old holds two TXT entries under one
    key: the lookup keeps the last one only, and an update-new entry that
    equals the first one in name, first target and TTL is kept. *)
Lemma removeNoop_keeps_entry_with_equal_old :
  someOldSame (UpdateOld twoOldBatch) (txt "txt.example.com" "v=1" 300) = true
  ∧ UpdateNew (removeNoopTXTUpdates twoOldBatch) =
      [txt "txt.example.com" "v=1" 300]
  ∧ ¬ (∀ c, UpdateNew (removeNoopTXTUpdates c) =
            filter (λ ep, someOldSame (UpdateOld c) ep = false) (UpdateNew c)).
Proof.
  split; [by vm_compute|]. split; [by vm_compute|].
  intros Hclaim. specialize (Hclaim twoOldBatch).
  vm_compute in Hclaim. discriminate.
Qed.

(** C4 (amended). The suppressor removes from update-new exactly the TXT
    entries with at least one target for which the last update-old TXT
    entry with the same DNS name and the same first target has an equal
    TTL. Every other entry is kept, in the original order: one whose TTL
    differs from that entry's, one whose key has no update-old entry, one
    that is not TXT, one without targets. The other lists are untouched. *)
Theorem removeNoopTXTUpdates_spec (c : Changes) :
  UpdateNew (removeNoopTXTUpdates c) =
    filter (λ ep, isNoop (UpdateOld c) ep = false) (UpdateNew c)
  ∧ Create (removeNoopTXTUpdates c) = Create c
  ∧ UpdateOld (removeNoopTXTUpdates c) = UpdateOld c
  ∧ Delete (removeNoopTXTUpdates c) = Delete c
  ∧ (∀ ep, isNoop (UpdateOld c) ep = true ↔
       RecordType ep = RecordTypeTXT
       ∧ ∃ target rest old pre post,
           Targets ep = target :: rest
           ∧ UpdateOld c = pre ++ old :: post
           ∧ RecordType old = RecordTypeTXT
           ∧ head (Targets old) = Some target
           ∧ DNSName old = DNSName ep
           ∧ Forall (λ e, filedUnder (DNSName ep) target e = false) post
           ∧ RecordTTL old = RecordTTL ep).
Proof.
  split; [|split; [|split; [|split]]].
  - unfold removeNoopTXTUpdates.
    destruct (UpdateOld c) as [|o olds] eqn:Hold; simpl.
    + symmetry. induction (UpdateNew c) as [|n news IHn]; [done|].
      rewrite filter_cons_True; [by rewrite IHn|].
      unfold isNoop. simpl. by destruct (bool_decide _), (head _).
    + destruct (UpdateNew c) as [|n news] eqn:Hnew; simpl; [done|].
      rewrite <- filterUpdateNew_spec. done.
  - unfold removeNoopTXTUpdates. by case_match.
  - unfold removeNoopTXTUpdates. by case_match.
  - unfold removeNoopTXTUpdates. by case_match.
  - intros ep. unfold isNoop.
    rewrite andb_true_iff, bool_decide_eq_true.
    apply and_iff_compat_l.
    destruct (Targets ep) as [|target rest]; simpl.
    + split; [done|]. by intros (? & ? & ? & ? & ? & ? & _).
    + split.
      * destruct (lastOld (UpdateOld c) (DNSName ep) target) as [old|] eqn:Hl;
          [|done].
        intros Httl%bool_decide_eq_true.
        apply lastOld_spec in Hl as (pre & post & Heq & Hf & Hpost).
        unfold filedUnder in Hf.
        rewrite !andb_true_iff, !bool_decide_eq_true in Hf.
        destruct Hf as [[? ?] ?].
        by exists target, rest, old, pre, post.
      * intros (t & r & old & pre & post & [= <- <-] & Heq & ? & ? & ? & Hpost
                & Httl).
        assert (Hl : lastOld (UpdateOld c) (DNSName ep) target = Some old).
        { apply lastOld_spec. exists pre, post. split; [done|].
          split; [|done]. unfold filedUnder.
          by rewrite !bool_decide_eq_true_2. }
        rewrite Hl. by apply bool_decide_eq_true.
Qed.

(** * The operations on the client *)

Section ProviderFacts.

Context `{Client} `{Externals}.

(** Unfolds the monad of the operations. *)
Ltac run := unfold bind, ret, call in *; simpl in *.

Lemma DeleteDnsRecords_app (zone : gostring) (pre l : list Record_) :
  ∀ st,
    DeleteDnsRecords zone (pre ++ l) st =
      let (res, st1) := DeleteDnsRecords zone pre st in
      match res with
      | Some e => (Some e, st1)
      | None => DeleteDnsRecords zone l st1
      end.
Proof.
  induction pre as [|r pre IH]; intros st; [done|].
  simpl. destruct (Strconv.Atoi (ID r)) as [e|id]; [done|].
  run. destruct (DeleteRecord zone id (world st)) as [[e|] w]; [done|].
  apply IH.
Qed.

Lemma UpdateDnsRecords_app (zone : gostring) (pre l : list Record_) :
  ∀ st,
    UpdateDnsRecords zone (pre ++ l) st =
      let (res, st1) := UpdateDnsRecords zone pre st in
      match res with
      | Some e => (Some e, st1)
      | None => UpdateDnsRecords zone l st1
      end.
Proof.
  induction pre as [|r pre IH]; intros st; [done|].
  simpl. destruct (Strconv.Atoi (ID r)) as [e|id]; [done|].
  run. destruct (EditRecord zone id r (world st)) as [[e|] w]; [done|].
  apply IH.
Qed.

(** The calls of a delete operation are those of a prefix of its records,
    one call per record, and of all records when it succeeds. *)
Lemma DeleteDnsRecords_calls (zone : gostring) (records : list Record_) :
  ∀ st, ∃ issued cs,
    issued `prefix_of` records
    ∧ mapM (deleteCall zone) issued = Some cs
    ∧ calls (DeleteDnsRecords zone records st).2 = calls st ++ cs
    ∧ ((DeleteDnsRecords zone records st).1 = None → issued = records).
Proof.
  induction records as [|r records IH]; intros st.
  - exists [], []. simpl. by rewrite app_nil_r.
  - simpl. destruct (Strconv.Atoi (ID r)) as [e|id] eqn:Hid.
    + exists [], []. simpl. rewrite app_nil_r.
      split; [apply prefix_nil|done].
    + run. destruct (DeleteRecord zone id (world st)) as [[e|] w]; simpl.
      * exists [r], [CallDeleteRecord zone id]. unfold deleteCall.
        simpl. rewrite Hid. simpl.
        split; [by apply prefix_cons, prefix_nil|done].
      * destruct (IH {| world := w;
                        calls := calls st ++ [CallDeleteRecord zone id] |})
          as (issued & cs & Hp & Hm & Hc & Hall).
        exists (r :: issued), (CallDeleteRecord zone id :: cs).
        split; [by apply prefix_cons|]. split.
        { assert (Hd : deleteCall zone r = Some (CallDeleteRecord zone id))
            by (unfold deleteCall; by rewrite Hid).
          cbn -[deleteCall]. rewrite Hd. cbn -[deleteCall]. by rewrite Hm. }
        split; [by rewrite Hc; simpl; rewrite <- app_assoc|].
        intros Hn. by rewrite Hall.
Qed.

Lemma UpdateDnsRecords_calls (zone : gostring) (records : list Record_) :
  ∀ st, ∃ issued cs,
    issued `prefix_of` records
    ∧ mapM (editCall zone) issued = Some cs
    ∧ calls (UpdateDnsRecords zone records st).2 = calls st ++ cs
    ∧ ((UpdateDnsRecords zone records st).1 = None → issued = records).
Proof.
  induction records as [|r records IH]; intros st.
  - exists [], []. simpl. by rewrite app_nil_r.
  - simpl. destruct (Strconv.Atoi (ID r)) as [e|id] eqn:Hid.
    + exists [], []. simpl. rewrite app_nil_r.
      split; [apply prefix_nil|done].
    + run. destruct (EditRecord zone id r (world st)) as [[e|] w]; simpl.
      * exists [r], [CallEditRecord zone id r]. unfold editCall.
        simpl. rewrite Hid. simpl.
        split; [by apply prefix_cons, prefix_nil|done].
      * destruct (IH {| world := w;
                        calls := calls st ++ [CallEditRecord zone id r] |})
          as (issued & cs & Hp & Hm & Hc & Hall).
        exists (r :: issued), (CallEditRecord zone id r :: cs).
        split; [by apply prefix_cons|]. split.
        { assert (Hd : editCall zone r = Some (CallEditRecord zone id r))
            by (unfold editCall; by rewrite Hid).
          cbn -[editCall]. rewrite Hd. cbn -[editCall]. by rewrite Hm. }
        split; [by rewrite Hc; simpl; rewrite <- app_assoc|].
        intros Hn. by rewrite Hall.
Qed.

(** C9 (amended). When the identifier of a record in the list does not
    parse as a decimal integer, the delete operation and the update
    operation return an error and issue no call for that record or for any
    record after it: the run is that of the records before it, and the
    calls issued are those of a prefix of the records before it. When the
    operation gets through the records before it (their identifiers parse
    and their calls succeed), every one of them has been issued and the
    error returned is the parse error of that record. *)
Theorem unparsable_id_stops_operation (zone : gostring)
    (pre post : list Record_) (r : Record_) (e : Strconv.NumError)
    (st : State) :
  Strconv.Atoi (ID r) = inl e →
  ((DeleteDnsRecords zone (pre ++ r :: post) st).2
     = (DeleteDnsRecords zone pre st).2
   ∧ (DeleteDnsRecords zone (pre ++ r :: post) st).1
     = Some (default (ErrParseID r e) (DeleteDnsRecords zone pre st).1)
   ∧ ∃ issued cs,
       issued `prefix_of` pre
       ∧ mapM (deleteCall zone) issued = Some cs
       ∧ calls (DeleteDnsRecords zone (pre ++ r :: post) st).2
         = calls st ++ cs
       ∧ ((DeleteDnsRecords zone pre st).1 = None → issued = pre))
  ∧ ((UpdateDnsRecords zone (pre ++ r :: post) st).2
       = (UpdateDnsRecords zone pre st).2
     ∧ (UpdateDnsRecords zone (pre ++ r :: post) st).1
       = Some (default (ErrParseID r e) (UpdateDnsRecords zone pre st).1)
     ∧ ∃ issued cs,
         issued `prefix_of` pre
         ∧ mapM (editCall zone) issued = Some cs
         ∧ calls (UpdateDnsRecords zone (pre ++ r :: post) st).2
           = calls st ++ cs
         ∧ ((UpdateDnsRecords zone pre st).1 = None → issued = pre)).
Proof.
  intros Hid. split.
  - assert (Hst : (DeleteDnsRecords zone (pre ++ r :: post) st).2
                  = (DeleteDnsRecords zone pre st).2).
    { rewrite DeleteDnsRecords_app.
      destruct (DeleteDnsRecords zone pre st) as [[err|] st1]; [done|].
      simpl. by rewrite Hid. }
    split; [exact Hst|]. split.
    + rewrite DeleteDnsRecords_app.
      destruct (DeleteDnsRecords zone pre st) as [[err|] st1]; [done|].
      simpl. by rewrite Hid.
    + rewrite Hst. apply DeleteDnsRecords_calls.
  - assert (Hst : (UpdateDnsRecords zone (pre ++ r :: post) st).2
                  = (UpdateDnsRecords zone pre st).2).
    { rewrite UpdateDnsRecords_app.
      destruct (UpdateDnsRecords zone pre st) as [[err|] st1]; [done|].
      simpl. by rewrite Hid. }
    split; [exact Hst|]. split.
    + rewrite UpdateDnsRecords_app.
      destruct (UpdateDnsRecords zone pre st) as [[err|] st1]; [done|].
      simpl. by rewrite Hid.
    + rewrite Hst. apply UpdateDnsRecords_calls.
Qed.

(** * Listing the records *)

Lemma Records_inner_spec (domain : gostring) (records : list Record_) :
  ∀ endpoints,
    Records_inner domain endpoints records =
      endpoints ++ (recordEndpoint domain <$> records).
Proof.
  induction records as [|rec records IH]; intros endpoints; simpl.
  - by rewrite app_nil_r.
  - by rewrite IH, <- app_assoc.
Qed.

Lemma Records_loop_spec (domains : list gostring) :
  ∀ endpoints st,
    Records_loop domains endpoints st =
      (endpoints
       ++ flat_map (λ dr, recordEndpoint dr.1 <$> dr.2) (listed domains st).1,
       (listed domains st).2).
Proof.
  induction domains as [|domain domains IH]; intros endpoints st; simpl.
  - run. by rewrite app_nil_r.
  - run. destruct (RetrieveRecords domain (world st)) as [[e|records] w].
    + rewrite IH. by destruct (listed domains _).
    + rewrite IH, Records_inner_spec.
      destruct (listed domains _) as [rest st']. simpl.
      by rewrite <- app_assoc.
Qed.

Lemma Records_log_spec (endpoints : list (option Endpoint)) :
  Records_log endpoints = true ↔ Forall is_Some endpoints.
Proof.
  induction endpoints as [|[ep|] endpoints IH]; simpl.
  - split; [by constructor|done].
  - rewrite Forall_cons, IH. split; [by split; [eexists|]|by intros [_ ?]].
  - split; [done|]. intros [[? [=]] _]%Forall_cons.
Qed.

(** C10. A record whose TTL does not parse as a decimal integer is turned
    into an endpoint like any other, built with the TTL 600: the inner loop
    of the listing emits one endpoint per record, in order. After a good
    login the listing collects the endpoints of all the records it could
    retrieve; it returns them when the constructor has given no nil
    pointer, and panics in its last loop otherwise, whatever the TTLs
    were. The only error it returns is that of the login. *)
Theorem Records_unparsable_ttl (p : PorkbunProvider) (st : State) :
  (∀ domain rec e,
     Strconv.Atoi (TTL rec) = inl e →
     recordEndpoint domain rec =
       NewEndpointWithTTL (endpointNameOf domain rec) (Type_ rec) 600
         [Content rec])
  ∧ (∀ domain endpoints pre rec post,
       Records_inner domain endpoints (pre ++ rec :: post) =
         (endpoints ++ (recordEndpoint domain <$> pre))
         ++ recordEndpoint domain rec :: (recordEndpoint domain <$> post))
  ∧ (dryRun p = false → (ensureLogin st).1 = None →
       let collected :=
         flat_map (λ dr, recordEndpoint dr.1 <$> dr.2)
           (listed (domainFilter p) (ensureLogin st).2).1 in
       Records p st =
         (if decide (Forall is_Some collected)
          then Returned (inr collected) else Panicked,
          (listed (domainFilter p) (ensureLogin st).2).2))
  ∧ ((∀ name type ttl targets,
        is_Some (NewEndpointWithTTL name type ttl targets)) →
     dryRun p = false → (ensureLogin st).1 = None →
       Records p st =
         (Returned (inr (flat_map (λ dr, recordEndpoint dr.1 <$> dr.2)
                           (listed (domainFilter p) (ensureLogin st).2).1)),
          (listed (domainFilter p) (ensureLogin st).2).2))
  ∧ (∀ e, (Records p st).1 = Returned (inl e) →
       dryRun p = false ∧ (ensureLogin st).1 = Some e).
Proof.
  assert (Hrun : dryRun p = false → (ensureLogin st).1 = None →
            let collected :=
              flat_map (λ dr, recordEndpoint dr.1 <$> dr.2)
                (listed (domainFilter p) (ensureLogin st).2).1 in
            Records p st =
              (if decide (Forall is_Some collected)
               then Returned (inr collected) else Panicked,
               (listed (domainFilter p) (ensureLogin st).2).2)).
  { intros Hdry Hlogin collected. unfold Records. rewrite Hdry.
    unfold bind at 1. destruct (ensureLogin st) as [err st1].
    simpl in Hlogin. subst err. unfold bind, ret.
    rewrite Records_loop_spec. simpl. subst collected. simpl.
    destruct (Records_log _) eqn:Hlog.
    - apply Records_log_spec in Hlog. by rewrite decide_True.
    - rewrite decide_False; [done|]. intros Hall.
      apply Records_log_spec in Hall. congruence. }
  split; [|split; [|split; [|split]]].
  - intros domain rec e He. unfold recordEndpoint. by rewrite He.
  - intros domain endpoints pre rec post.
    rewrite Records_inner_spec, fmap_app, fmap_cons. by rewrite <- app_assoc.
  - exact Hrun.
  - intros Htotal Hdry Hlogin. rewrite (Hrun Hdry Hlogin). cbv zeta.
    rewrite decide_True; [done|]. apply Forall_forall. intros x Hx.
    apply list_elem_of_In, in_flat_map in Hx as ([d rs] & _ & Hx).
    apply list_elem_of_In, list_elem_of_fmap in Hx as (rec & -> & _).
    apply Htotal.
  - intros e. unfold Records. destruct (dryRun p); [done|].
    unfold bind at 1. destruct (ensureLogin st) as [[err|] st1]; simpl.
    + by intros [= ->].
    + unfold bind, ret. destruct (Records_loop _ _ _) as [eps st2].
      by destruct (Records_log eps).
Qed.

(** * Applying the changes of all zones *)

Lemma ApplyChanges_loop_spec (entries : list (gostring * Changes)) :
  ∀ firstErr st,
    ApplyChanges_loop entries firstErr st =
      (match firstErr with
       | Some e => Some e
       | None => firstError (zoneOutcomes entries st).1
       end,
       (zoneOutcomes entries st).2).
Proof.
  induction entries as [|[zoneName c] entries IH]; intros firstErr st; simpl.
  - by destruct firstErr.
  - destruct (HasChanges c); simpl; [|apply IH].
    run. destruct (applyChangesToZone c zoneName st) as [[e|] st1].
    + rewrite IH. destruct (zoneOutcomes entries st1) as [rest st2].
      by destruct firstErr.
    + rewrite IH. by destruct (zoneOutcomes entries st1) as [rest st2].
Qed.

Lemma zoneOutcomes_zones (entries : list (gostring * Changes)) :
  ∀ st,
    (zoneOutcomes entries st).1.*1 =
      (filter (λ zc, HasChanges zc.2 = true) entries).*1.
Proof.
  induction entries as [|[zoneName c] entries IH]; intros st; [done|].
  rewrite filter_cons. simpl. destruct (HasChanges c) eqn:Hc; simpl.
  - run. destruct (applyChangesToZone c zoneName st) as [err st1].
    specialize (IH st1). destruct (zoneOutcomes entries st1) as [rest st2].
    cbn. f_equal. exact IH.
  - apply IH.
Qed.

Lemma zoneOutcomes_app (pre post : list (gostring * Changes)) :
  ∀ st,
    zoneOutcomes (pre ++ post) st =
      let (o1, s1) := zoneOutcomes pre st in
      let (o2, s2) := zoneOutcomes post s1 in
      (o1 ++ o2, s2).
Proof.
  induction pre as [|[zoneName c] pre IH]; intros st; simpl.
  - run. by destruct (zoneOutcomes post st).
  - destruct (HasChanges c); [|apply IH].
    run. destruct (applyChangesToZone c zoneName st) as [err st1].
    rewrite IH. destruct (zoneOutcomes pre st1) as [o1 s1].
    by destruct (zoneOutcomes post s1).
Qed.

Lemma firstError_None (outcomes : list (gostring * option error)) :
  firstError outcomes = None ↔ Forall (λ o, o.2 = None) outcomes.
Proof.
  induction outcomes as [|[z [e|]] outcomes IH]; simpl.
  - split; [by constructor|done].
  - split; [done|]. by intros [[=] _]%Forall_cons.
  - rewrite Forall_cons, IH. simpl. tauto.
Qed.

Lemma firstError_Some (outcomes : list (gostring * option error))
    (e : error) :
  firstError outcomes = Some e ↔
  ∃ pre zone post, outcomes = pre ++ (zone, Some e) :: post
    ∧ Forall (λ o, o.2 = None) pre.
Proof.
  induction outcomes as [|[z [e'|]] outcomes IH]; simpl.
  - split; [done|]. intros (pre & ? & ? & Heq & _). by destruct pre.
  - split.
    + intros [= ->]. by exists [], z, outcomes.
    + intros (pre & zone & post & Heq & Hpre).
      destruct pre as [|[z0 o0] pre]; simpl in Heq.
      * by injection Heq as -> ->.
      * injection Heq as <- <- _. apply Forall_cons in Hpre as [Hbad _].
        simpl in Hbad. done.
  - rewrite IH. split.
    + intros (pre & zone & post & -> & Hpre).
      exists ((z, None) :: pre), zone, post. split; [done|].
      by constructor.
    + intros (pre & zone & post & Heq & Hpre).
      destruct pre as [|[z0 o0] pre]; simpl in Heq; [done|].
      injection Heq as _ _ ->. apply Forall_cons in Hpre as [_ Hpre].
      by exists pre, zone, post.
Qed.

Lemma dom_initZones (filters : list gostring) :
  ∀ m : gmap gostring Changes,
    dom (initZones m filters) = list_to_set filters ∪ dom m.
Proof.
  induction filters as [|zoneName filters IH]; intros m; simpl.
  - by rewrite (left_id_L ∅ (∪)).
  - rewrite IH, dom_insert_L. by rewrite (assoc_L (∪)), (comm_L (∪) _ {[zoneName]}).
Qed.

Lemma dom_route (filters : list gostring)
    (add : Endpoint → Changes → Changes) (eps : list Endpoint) :
  ∀ m : gmap gostring Changes, dom (route filters add m eps) = dom m.
Proof.
  induction eps as [|ep eps IH]; intros m; simpl; [done|].
  case_bool_decide; rewrite IH; [done|]. apply dom_alter_L.
Qed.

(** The zones of the partitioned batch are the configured ones. *)
Lemma dom_partition (filters : list gostring) (changes : Changes) :
  dom (partition filters changes) = list_to_set filters.
Proof.
  unfold partition. rewrite !dom_route, dom_initZones, dom_empty_L.
  by rewrite (right_id_L ∅ (∪)).
Qed.

(** C5. Once the login has succeeded, every configured zone whose batch
    has changes is applied, in the order of the map's traversal, each from
    the state its predecessor left, whether the zones before it failed or
    not. The call returns the first error among the outcomes of these
    zones, and no error exactly when every one of them succeeded. *)
Theorem ApplyChanges_first_error (p : PorkbunProvider) (changes : Changes)
    (st : State) :
  HasChanges changes = true →
  dryRun p = false →
  (ensureLogin st).1 = None →
  let entries := rangeOrder (partition (domainFilter p) changes) in
  let st1 := (ensureLogin st).2 in
  let outcomes := (zoneOutcomes entries st1).1 in
  ApplyChanges p changes st = (firstError outcomes, (zoneOutcomes entries st1).2)
  ∧ (NoDup entries.*1 ∧ ∀ zone, zone ∈ entries.*1 ↔ zone ∈ domainFilter p)
  ∧ outcomes.*1 = (filter (λ zc, HasChanges zc.2 = true) entries).*1
  ∧ (∀ pre zone c post,
       entries = pre ++ (zone, c) :: post → HasChanges c = true →
       zoneOutcomes entries st1 =
         let (o1, s1) := zoneOutcomes pre st1 in
         let (err, s2) := applyChangesToZone c zone s1 in
         let (o3, s3) := zoneOutcomes post s2 in
         (o1 ++ (zone, err) :: o3, s3))
  ∧ ((ApplyChanges p changes st).1 = None ↔
       Forall (λ o, o.2 = None) outcomes)
  ∧ (∀ e, (ApplyChanges p changes st).1 = Some e ↔
       ∃ pre zone post, outcomes = pre ++ (zone, Some e) :: post
         ∧ Forall (λ o, o.2 = None) pre).
Proof.
  intros Hchanges Hdry Hlogin entries st1 outcomes.
  assert (Hrun : ApplyChanges p changes st =
            (firstError outcomes, (zoneOutcomes entries st1).2)).
  { unfold ApplyChanges. rewrite Hchanges, Hdry. simpl.
    unfold bind at 1. subst outcomes st1.
    destruct (ensureLogin st) as [err st1]. simpl in Hlogin. subst err.
    simpl. apply ApplyChanges_loop_spec. }
  split; [exact Hrun|]. split; [|split; [|split; [|split]]].
  - assert (Hperm : entries.*1 ≡ₚ
              (map_to_list (partition (domainFilter p) changes)).*1).
    { subst entries. by rewrite rangeOrder_perm. }
    split.
    + rewrite Hperm. apply NoDup_fst_map_to_list.
    + intros zone. rewrite Hperm.
      assert (Hdom : zone ∈ domainFilter p ↔
                zone ∈ dom (partition (domainFilter p) changes)).
      { rewrite dom_partition. by rewrite elem_of_list_to_set. }
      rewrite Hdom, elem_of_dom, list_elem_of_fmap.
      split.
      * intros ([z c] & -> & Hin). apply elem_of_map_to_list in Hin. by eexists.
      * intros [c Hc]. exists (zone, c). split; [done|].
        by apply elem_of_map_to_list.
  - apply zoneOutcomes_zones.
  - intros pre zone c post Heq Hc. rewrite Heq, zoneOutcomes_app.
    destruct (zoneOutcomes pre st1) as [o1 s1]. simpl. rewrite Hc.
    unfold bind, ret.
    destruct (applyChangesToZone c zone s1) as [err s2].
    by destruct (zoneOutcomes post s2).
  - rewrite Hrun. apply firstError_None.
  - intros e. rewrite Hrun. apply firstError_Some.
Qed.

End ProviderFacts.

(** * The operations on the client in memory *)

(** The listing with a TTL that is not a number and with the root marker:
    both records become endpoints, the first with the TTL 600, the second
    under the name of the domain. *)
Example Records_sample :
  (@Records memClient testExternals
     {| domainFilter := [str "bar.org"]; dryRun := false |}
     (initial [withTTL "www.bar.org" "abc"; withTTL "@" "300"])).1
  = Returned (inr [Some (aRecord "www.bar.org" "5.5.5.5" 600);
                   Some (aRecord "bar.org" "5.5.5.5" 300)]).
Proof. vm_compute. reflexivity. Qed.

(** The zone [down.net] comes first and fails; [bar.org] is applied all
    the same, and the error of [down.net] is returned. *)
Example ApplyChanges_sample :
  (@rangeOrder testExternals
     (partition (domainFilter twoZones) twoZoneBatch)).*1
  = [str "down.net"; str "bar.org"]
  ∧ (@ApplyChanges memClient testExternals twoZones twoZoneBatch
       (initial [])).1
    = Some (ErrWrap "unable to get DNS records" (@ErrClient memClient "zone is down"))
  ∧ calls (@ApplyChanges memClient testExternals twoZones twoZoneBatch
             (initial [])).2
    = [CallPing;
       CallRetrieveRecords (str "down.net");
       CallRetrieveRecords (str "bar.org");
       CallCreateRecord (str "bar.org")
         {| ID := []; Name := str "www"; Type_ := str "A";
            Content := str "2.2.2.2"; TTL := str "600";
            Prio := []; Notes := [] |}].
Proof. vm_compute. done. Qed.

Lemma ApplyChanges_first_error_witness :
  @ApplyChanges memClient testExternals twoZones twoZoneBatch (initial [])
  = (firstError
       (@zoneOutcomes memClient testExternals
          (@rangeOrder testExternals
             (partition (domainFilter twoZones) twoZoneBatch))
          (@ensureLogin memClient (initial [])).2).1,
     (@zoneOutcomes memClient testExternals
        (@rangeOrder testExternals
           (partition (domainFilter twoZones) twoZoneBatch))
        (@ensureLogin memClient (initial [])).2).2).
Proof.
  apply (@ApplyChanges_first_error memClient testExternals twoZones
           twoZoneBatch (initial [])); reflexivity.
Defined.

Lemma unparsable_id_stops_operation_witness :
  Strconv.Atoi (ID (withID "")) = inl Strconv.ErrSyntax
  ∧ (@DeleteDnsRecords memClient (str "bar.org")
       ([withID "7"] ++ withID "" :: [withID "8"]) (initial [withID "7"])).1
    = Some (default (ErrParseID (withID "") Strconv.ErrSyntax)
              (@DeleteDnsRecords memClient (str "bar.org") [withID "7"]
                 (initial [withID "7"])).1).
Proof.
  split; [reflexivity|].
  apply (@unparsable_id_stops_operation memClient (str "bar.org")
           [withID "7"] [withID "8"] (withID "") Strconv.ErrSyntax
           (initial [withID "7"]) eq_refl).
Defined.

(** C9, as stated, fails. When the client refuses an earlier delete, the
    operation stops there: the error is not that of the record whose
    identifier does not parse, and the record between the two has not been
    issued. When two identifiers do not parse, the error is that of the
    first, and nothing has been issued for the record before the second. *)
Lemma unparsable_id_not_always_reached :
  @DeleteDnsRecords memClient (str "bar.org")
    [withID "13"; withID "7"; withID ""] (initial [])
  = (Some (ErrWrap "unable to delete record"
             (@ErrClient memClient "delete refused")),
     {| world := ([] : @World memClient);
        calls := [CallDeleteRecord (str "bar.org") 13] |})
  ∧ @UpdateDnsRecords memClient (str "bar.org")
      [withID ""; withID "x"] (initial [])
    = (Some (ErrParseID (withID "") Strconv.ErrSyntax), initial [])
  ∧ ¬ (∀ (C : Client) zone pre r post e (st : @State C),
         Strconv.Atoi (ID r) = inl e →
         (DeleteDnsRecords zone (pre ++ r :: post) st).1
           = Some (ErrParseID r e)
         ∧ ∃ cs, mapM (deleteCall zone) pre = Some cs
                 ∧ calls (DeleteDnsRecords zone (pre ++ r :: post) st).2
                   = calls st ++ cs).
Proof.
  split; [by vm_compute|]. split; [by vm_compute|].
  intros Hclaim.
  destruct (Hclaim memClient (str "bar.org") [withID "13"; withID "7"]
              (withID "") [] Strconv.ErrSyntax (initial []) eq_refl)
    as [Herr _].
  vm_compute in Herr. discriminate.
Qed.

(** * More about the zone matcher *)

(** X1. The zone matcher depends on the set of zones only: neither the
    order of the filter nor a repeated zone changes the zone of an
    endpoint. *)
Theorem endpointZoneName_zone_set (e : Endpoint)
    (zones1 zones2 : list gostring) :
  (∀ z, z ∈ zones1 ↔ z ∈ zones2) →
  endpointZoneName e zones1 = endpointZoneName e zones2.
Proof.
  intros Hset. unfold endpointZoneName.
  destruct (endpointZoneName_loop_spec (DNSName e) zones1 [])
    as (Hr1 & _ & Hmax1).
  destruct (endpointZoneName_loop_spec (DNSName e) zones2 [])
    as (Hr2 & _ & Hmax2).
  set (r1 := endpointZoneName_loop (DNSName e) [] zones1) in *.
  set (r2 := endpointZoneName_loop (DNSName e) [] zones2) in *.
  assert (Hs1 : r1 `suffix_of` DNSName e)
    by (destruct Hr1 as [->|[_ ?]]; [apply suffix_nil|done]).
  assert (Hs2 : r2 `suffix_of` DNSName e)
    by (destruct Hr2 as [->|[_ ?]]; [apply suffix_nil|done]).
  apply (suffix_same_length r1 r2 (DNSName e)); [done|done|].
  assert (length r1 ≤ length r2)%nat.
  { destruct Hr1 as [->|[Hin _]]; [simpl; lia|].
    apply Hmax2; [by apply Hset|done]. }
  assert (length r2 ≤ length r1)%nat.
  { destruct Hr2 as [->|[Hin _]]; [simpl; lia|].
    apply Hmax1; [by apply Hset|done]. }
  lia.
Qed.

Lemma endpointZoneName_zone_set_witness :
  endpointZoneName epFoo [str "bar.org"; str "baz.org"] =
  endpointZoneName epFoo [str "baz.org"; str "bar.org"; str "baz.org"].
Proof.
  apply endpointZoneName_zone_set.
  intros z. rewrite !elem_of_cons, !elem_of_nil. tauto.
Defined.

(** X2. An endpoint is left without a zone exactly when no zone of the
    filter other than the empty string is a suffix of its DNS name: an
    empty string in the filter never takes an endpoint. *)
Theorem endpointZoneName_empty_iff (e : Endpoint) (zones : list gostring) :
  endpointZoneName e zones = [] ↔
  ∀ z, z ∈ zones → z `suffix_of` DNSName e → z = [].
Proof.
  unfold endpointZoneName.
  destruct (endpointZoneName_loop_spec (DNSName e) zones [])
    as (Hr & _ & Hmax).
  set (r := endpointZoneName_loop (DNSName e) [] zones) in *.
  split.
  - intros Hnil z Hz Hsuf. specialize (Hmax z Hz Hsuf).
    rewrite Hnil in Hmax. destruct z; [done|simpl in Hmax; lia].
  - intros Hall. destruct Hr as [Hr|[Hin Hsuf]]; [done|].
    by apply Hall.
Qed.

(** * More about the record matcher and the converter *)

Lemma getIDforRecord_elem_of (recordName target recordType : gostring)
    (recs : list Record_) (strict : bool) :
  getIDforRecord recordName target recordType recs strict = []
  ∨ ∃ rec, rec ∈ recs
      ∧ ID rec = getIDforRecord recordName target recordType recs strict
      ∧ matchesQuery recordName target recordType strict rec = true.
Proof.
  induction recs as [|rec recs IH]; [by left|].
  rewrite getIDforRecord_step.
  destruct (matchesQuery recordName target recordType strict rec) eqn:Hm.
  - right. exists rec. split; [left|done].
  - destruct IH as [IH|(rec' & Hin & Hid & Hm')]; [by left|].
    right. exists rec'. split; [by right|done].
Qed.

(** X3. The converter never invents an identifier. Every record it emits
    comes from an endpoint of its input and carries that endpoint's type;
    its identifier is empty or it is the identifier of a listed record
    that has the endpoint's full DNS name, the same type and, under strict
    matching, the emitted content. *)
Theorem convert_ids_from_listing (recs : list Record_) (eps : list Endpoint)
    (zoneName : gostring) (strict : bool) (r : Record_) :
  r ∈ convertToPorkbunRecord recs eps zoneName strict →
  ∃ ep, ep ∈ eps ∧ Type_ r = RecordType ep
    ∧ (ID r = []
       ∨ ∃ rec, rec ∈ recs ∧ ID rec = ID r ∧ Name rec = DNSName ep
           ∧ Type_ rec = Type_ r
           ∧ (strict = true → Content rec = Content r)).
Proof.
  induction eps as [|ep eps IH]; simpl; [by intros ?%elem_of_nil|].
  destruct (Targets ep) as [|target0 rest] eqn:Ht.
  - intros Hin. destruct (IH Hin) as (ep' & Hep & Hrest).
    exists ep'. split; [by right|done].
  - intros [->|Hin]%elem_of_cons.
    + exists ep. split; [left|]. simpl. split; [done|].
      destruct (getIDforRecord_elem_of (DNSName ep)
                  (contentOf (RecordType ep) target0) (RecordType ep) recs
                  strict) as [Hnil|(rec & Hin & Hid & Hm)]; [by left|].
      right. exists rec. unfold matchesQuery in Hm.
      rewrite !andb_true_iff, orb_true_iff, !bool_decide_eq_true in Hm.
      destruct Hm as [[Hty Hn] Hc].
      split; [done|]. split; [done|]. split; [done|]. split; [done|].
      intros ->. by destruct Hc.
    + destruct (IH Hin) as (ep' & Hep & Hrest).
      exists ep'. split; [by right|done].
Qed.

Lemma convert_ids_from_listing_witness :
  ∃ ep, ep ∈ [epNoTargets; epFoo] ∧ Type_ recFooRelative = RecordType ep
    ∧ (ID recFooRelative = []
       ∨ ∃ rec, rec ∈ [recFooListed] ∧ ID rec = ID recFooRelative
           ∧ Name rec = DNSName ep ∧ Type_ rec = Type_ recFooRelative
           ∧ (true = true → Content rec = Content recFooRelative)).
Proof.
  apply (convert_ids_from_listing [recFooListed] [epNoTargets; epFoo]
           (str "bar.org") true recFooRelative).
  vm_compute. left.
Defined.

(** * More about the no-op suppressor *)

Lemma removeNoop_eq (c : Changes) :
  removeNoopTXTUpdates c =
    {| Create := Create c; UpdateOld := UpdateOld c;
       UpdateNew := filter (λ ep, isNoop (UpdateOld c) ep = false)
                      (UpdateNew c);
       Delete := Delete c |}.
Proof.
  unfold removeNoopTXTUpdates.
  destruct c as [cr olds news de]; simpl.
  destruct olds as [|o olds]; simpl.
  - f_equal. induction news as [|n news IHn]; [done|].
    rewrite filter_cons_True; [by rewrite <- IHn|].
    unfold isNoop. simpl. by destruct (bool_decide _), (head _).
  - destruct news as [|n news]; simpl; [done|].
    by rewrite <- filterUpdateNew_spec.
Qed.

(** X4. The suppressor is idempotent: a second pass over a batch removes
    nothing more. *)
Theorem removeNoopTXTUpdates_idempotent (c : Changes) :
  removeNoopTXTUpdates (removeNoopTXTUpdates c) = removeNoopTXTUpdates c.
Proof.
  rewrite (removeNoop_eq (removeNoopTXTUpdates c)), !removeNoop_eq. simpl.
  f_equal. rewrite list_filter_filter.
  apply list_filter_iff. tauto.
Qed.

Lemma isNoop_someOldSame (updateOld : list Endpoint) (ep : Endpoint) :
  consistentOld updateOld = true →
  isNoop updateOld ep = someOldSame updateOld ep.
Proof.
  intros Hcons. unfold isNoop, someOldSame. f_equal.
  destruct (head (Targets ep)) as [target|]; [|done].
  destruct (lastOld updateOld (DNSName ep) target) as [old|] eqn:Hl.
  - apply lastOld_spec in Hl as (pre & post & Heq & Hf & _).
    assert (Hin : old ∈ updateOld) by (rewrite Heq; set_solver).
    apply eq_true_iff_eq. rewrite bool_decide_eq_true, existsb_exists.
    split.
    + intros Httl. exists old. rewrite Hf, bool_decide_eq_true_2 by done.
      split; [by apply list_elem_of_In|done].
    + intros (o & Ho & Hfo). apply list_elem_of_In in Ho.
      apply andb_true_iff in Hfo as [Hfo Httl].
      apply bool_decide_eq_true in Httl. rewrite <- Httl.
      unfold consistentOld in Hcons. rewrite forallb_forall in Hcons.
      specialize (Hcons old (proj1 (list_elem_of_In _ _) Hin)).
      rewrite forallb_forall in Hcons.
      specialize (Hcons o (proj1 (list_elem_of_In _ _) Ho)).
      apply orb_true_iff in Hcons as [Hk|Hk];
        [|by apply bool_decide_eq_true in Hk].
      exfalso. apply negb_true_iff in Hk. unfold sameKey in Hk.
      pose proof Hf as Hf'. unfold filedUnder in Hf'.
      rewrite !andb_true_iff, !bool_decide_eq_true in Hf'.
      destruct Hf' as [[_ Hhd] Hname].
      rewrite Hhd, Hname, Hf, Hfo in Hk. done.
  - symmetry. apply not_true_iff_false. rewrite existsb_exists.
    intros (o & Ho & Hfo). apply andb_true_iff in Hfo as [Hfo _].
    apply lastOld_None in Hl. rewrite Forall_forall in Hl.
    apply list_elem_of_In in Ho. specialize (Hl o Ho). congruence.
Qed.

(** X5. When the update-old entries filed under one key agree on the TTL
    (in particular when no two of them share a key), the suppressor
    removes exactly the TXT entries with a target for which some
    update-old TXT entry has the same DNS name, the same first target and
    an equal TTL. *)
Theorem removeNoop_some_old_same (c : Changes) :
  consistentOld (UpdateOld c) = true →
  UpdateNew (removeNoopTXTUpdates c) =
    filter (λ ep, someOldSame (UpdateOld c) ep = false) (UpdateNew c).
Proof.
  intros Hcons. rewrite removeNoop_eq. simpl.
  apply list_filter_iff. intros ep. by rewrite isNoop_someOldSame.
Qed.

Lemma removeNoop_some_old_same_witness :
  UpdateNew (removeNoopTXTUpdates suppressionBatch) =
    filter (λ ep, someOldSame (UpdateOld suppressionBatch) ep = false)
      (UpdateNew suppressionBatch).
Proof.
  apply removeNoop_some_old_same. vm_compute. reflexivity.
Defined.

(** * The root marker in listed names *)

Lemma Split_head_cons (c sep : ascii) (s : gostring) :
  c ≠ sep →
  hd [] (Strings.Split (c :: s) sep) = c :: hd [] (Strings.Split s sep).
Proof.
  intros Hc. simpl. rewrite bool_decide_eq_false_2 by done.
  by destruct (Strings.Split s sep).
Qed.

Lemma Split_head_nil (sep : ascii) (s : gostring) :
  hd [] (Strings.Split s sep) = [] ↔ s = [] ∨ ∃ s', s = sep :: s'.
Proof.
  destruct s as [|c s].
  - split; [by left|done].
  - destruct (decide (c = sep)) as [->|Hc].
    + simpl. rewrite bool_decide_eq_true_2 by done. simpl.
      split; [|done]. intros _. right. by exists s.
    + rewrite Split_head_cons by done.
      split; [done|]. intros [?|[s' [= ? ?]]]; congruence.
Qed.

(** X6. The listing replaces a record's name by the domain exactly when
    the first label of the name is the root marker, that is when the name
    is [@] or starts with [@.]; every other name is kept as it is. *)
Theorem endpointNameOf_root_marker (domain : gostring) (rec : Record_) :
  endpointNameOf domain rec =
    if decide (Name rec = str "@" ∨ str "@." `prefix_of` Name rec)
    then domain else Name rec.
Proof.
  unfold endpointNameOf.
  destruct (Name rec) as [|c s] eqn:Hn.
  - rewrite decide_False; [done|].
    intros [?|[k Hk]]; [done|]. by destruct k.
  - destruct (decide (c = "."%char)) as [->|Hdot].
    + rewrite decide_False; [done|].
      intros [[=]|[k [=]]].
    + rewrite Split_head_cons by done.
      case_bool_decide as Hstart; case_decide as Hroot; try done.
      * exfalso. apply Hroot. injection Hstart as -> Hhd.
        apply Split_head_nil in Hhd as [->|[s' ->]]; [by left|].
        right. by exists s'.
      * exfalso. apply Hstart. destruct Hroot as [[= -> ->]|[k [= -> ->]]].
        -- done.
        -- simpl. done.
Qed.

(** * Decimal strings *)

Lemma uintValue_ge (d : Decimal.uint) : ∀ n, 0 ≤ n → n ≤ uintValue d n.
Proof.
  induction d; intros n Hn; simpl; [lia| | | | | | | | | | ];
    (etrans; [|apply IHd]; lia).
Qed.

Lemma digits_string_of_uint (d : Decimal.uint) :
  ∀ n, 0 ≤ n → uintValue d n < 2 ^ 64 →
    Strconv.digits n (str (NilEmpty.string_of_uint d)) = inr (uintValue d n).
Proof.
  induction d; intros n Hn Hlt; [done| | | | | | | | | | ];
    (cbn [uintValue] in *;
     match goal with
     | H : uintValue ?d' ?m < _ |- _ =>
         pose proof (uintValue_ge d' m ltac:(lia)) as Hge
     end;
     simpl NilEmpty.string_of_uint; simpl str; cbn [Strconv.digits];
     match goal with
     | |- context [Strconv.digit ?c] =>
         let v := eval vm_compute in (Strconv.digit c) in
         change (Strconv.digit c) with v
     end;
     cbv iota beta;
     match goal with
     | |- context [2 ^ 64 <=? ?m] =>
         destruct (Z.leb_spec (2 ^ 64) m); [lia|]
     end;
     rewrite ?Z.add_0_r in *; apply IHd; lia).
Qed.

Lemma uintValue_of_uint_acc (d : Decimal.uint) :
  ∀ acc, Z.pos (Pos.of_uint_acc d acc) = uintValue d (Z.pos acc).
Proof.
  induction d; intros acc; simpl; [done| | | | | | | | | | ];
    rewrite IHd; f_equal; lia.
Qed.

Lemma uintValue_of_uint (d : Decimal.uint) :
  Z.of_N (Pos.of_uint d) = uintValue d 0.
Proof.
  induction d; simpl; [done|exact IHd| | | | | | | | | ];
    apply uintValue_of_uint_acc.
Qed.

Lemma uintValue_to_uint (p : positive) :
  uintValue (Pos.to_uint p) 0 = Z.pos p.
Proof. by rewrite <- uintValue_of_uint, DecimalPos.Unsigned.of_to. Qed.

(** The numeral of a positive number starts with a digit. *)
Lemma string_of_uint_head (p : positive) :
  ∃ c s', str (NilZero.string_of_uint (Pos.to_uint p)) = c :: s'
    ∧ str (NilZero.string_of_uint (Pos.to_uint p))
      = str (NilEmpty.string_of_uint (Pos.to_uint p))
    ∧ c ≠ "-"%char ∧ c ≠ "+"%char.
Proof.
  pose proof (DecimalPos.Unsigned.to_uint_nonnil p) as Hnil.
  destruct (Pos.to_uint p); [done| | | | | | | | | | ];
    (eexists _, _; split; [reflexivity|]; split; [reflexivity|];
     split; discriminate).
Qed.

(** [strconv.Atoi] reads back what [strconv.FormatInt] writes. *)
Lemma Atoi_FormatInt (i : Z) :
  - 2 ^ 63 ≤ i < 2 ^ 63 → Strconv.Atoi (Strconv.FormatInt i) = inr i.
Proof.
  intros Hi. unfold Strconv.FormatInt. destruct i as [|p|p].
  - reflexivity.
  - destruct (string_of_uint_head p) as (c & s' & Hs & Hd & Hm & Hp).
    simpl Z.to_int. simpl NilZero.string_of_int.
    assert (Hdig : Strconv.digits 0 (c :: s') = inr (Z.pos p)).
    { rewrite <- Hs, Hd, digits_string_of_uint; rewrite ?uintValue_to_uint;
        [done|lia|lia]. }
    rewrite Hs. unfold Strconv.Atoi.
    rewrite (bool_decide_eq_false_2 (c = "-"%char)) by done.
    rewrite (bool_decide_eq_false_2 (c = "+"%char)) by done.
    simpl orb. cbv iota. rewrite Hdig.
    destruct (Z.leb_spec (2 ^ 63) (Z.pos p)); [lia|done].
  - destruct (string_of_uint_head p) as (c & s' & Hs & Hd & Hm & Hp).
    simpl Z.to_int. simpl NilZero.string_of_int.
    change (str (String "-" (NilZero.string_of_uint (Pos.to_uint p))))
      with ("-"%char :: str (NilZero.string_of_uint (Pos.to_uint p))).
    assert (Hdig : Strconv.digits 0 (c :: s') = inr (Z.pos p)).
    { rewrite <- Hs, Hd, digits_string_of_uint; rewrite ?uintValue_to_uint;
        [done|lia|lia]. }
    rewrite Hs. unfold Strconv.Atoi.
    rewrite (bool_decide_eq_true_2 ("-"%char = "-"%char)) by done.
    simpl orb. cbv iota. rewrite Hdig.
    destruct (Z.ltb_spec (2 ^ 63) (Z.pos p)); [lia|done].
Qed.

(** * More about the operations on the client *)

Section ProviderMore.

Context `{Client} `{Externals}.

Ltac run := unfold bind, ret, call in *; simpl in *.

Lemma CreateDnsRecords_calls (zone : gostring) (records : list Record_) :
  ∀ st, ∃ issued,
    issued `prefix_of` records
    ∧ calls (CreateDnsRecords zone records st).2
      = calls st ++ (CallCreateRecord zone <$> issued)
    ∧ ((CreateDnsRecords zone records st).1 = None → issued = records)
    ∧ (∀ e, (CreateDnsRecords zone records st).1 = Some e →
         issued ≠ []
         ∧ ∃ ce, e = ErrWrap "unable to create record" (ErrClient ce)).
Proof.
  induction records as [|r records IH]; intros st.
  - exists []. simpl. by rewrite app_nil_r.
  - simpl. run.
    destruct (CreateRecord zone r (world st)) as [[ce|id] w]; simpl.
    + exists [r]. split; [by apply prefix_cons, prefix_nil|].
      split; [done|]. split; [done|]. intros e [= <-]. split; [done|by eexists].
    + destruct (IH {| world := w;
                      calls := calls st ++ [CallCreateRecord zone r] |})
        as (issued & Hp & Hc & Hall & Herr).
      exists (r :: issued). split; [by apply prefix_cons|].
      split; [by rewrite Hc; simpl; rewrite <- app_assoc|].
      split; [by intros Hn; rewrite Hall|].
      intros e He. split; [done|]. by apply Herr.
Qed.

Lemma CreateDnsRecords_app (zone : gostring) (pre l : list Record_) :
  ∀ st,
    CreateDnsRecords zone (pre ++ l) st =
      let (res, st1) := CreateDnsRecords zone pre st in
      match res with
      | Some e => (Some e, st1)
      | None => CreateDnsRecords zone l st1
      end.
Proof.
  induction pre as [|r pre IH]; intros st; [done|].
  simpl. run. destruct (CreateRecord zone r (world st)) as [[e|id] w]; [done|].
  apply IH.
Qed.

Lemma CreateDnsRecords_error_origin (zone : gostring)
    (records : list Record_) :
  ∀ st e,
    (CreateDnsRecords zone records st).1 = Some e →
    ∃ pre r post ce w,
      records = pre ++ r :: post
      ∧ (CreateDnsRecords zone pre st).1 = None
      ∧ CreateRecord zone r (world (CreateDnsRecords zone pre st).2)
        = (inl ce, w).
Proof.
  induction records as [|r records IH]; intros st e; [done|].
  simpl. run.
  destruct (CreateRecord zone r (world st)) as [[ce|id] w] eqn:Hr; simpl.
  - intros _. exists [], r, records, ce, w.
    split; [done|]. split; [done|]. exact Hr.
  - intros He.
    destruct (IH _ _ He) as (pre & r' & post & ce & w' & -> & Hn & Hc).
    exists (r :: pre), r', post, ce, w'. split; [done|].
    simpl. run. rewrite Hr. by split.
Qed.

(** X7. The create operation issues one create call per record, in the
    order of the list, and stops at the first call the client refuses:
    when the client refuses a record after accepting all the records
    before it, the operation returns the wrapped error of that call, the
    calls issued are those of the records before it and of the refused
    record, none of a later record, and the state is the one the refused
    call left. Every error of the operation arises this way, so it
    succeeds whenever the client accepts every create, and then the calls
    are those of the whole list. *)
Theorem CreateDnsRecords_stops_at_first_failure (zone : gostring)
    (records : list Record_) (st : State) :
  (∃ issued,
     issued `prefix_of` records
     ∧ calls (CreateDnsRecords zone records st).2
       = calls st ++ (CallCreateRecord zone <$> issued)
     ∧ ((CreateDnsRecords zone records st).1 = None → issued = records)
     ∧ (∀ e, (CreateDnsRecords zone records st).1 = Some e →
          issued ≠ []
          ∧ ∃ ce, e = ErrWrap "unable to create record" (ErrClient ce)))
  ∧ ((∀ r w, ∃ id w', CreateRecord zone r w = (inr id, w')) →
     (CreateDnsRecords zone records st).1 = None)
  ∧ (∀ pre r post ce w,
       records = pre ++ r :: post →
       (CreateDnsRecords zone pre st).1 = None →
       CreateRecord zone r (world (CreateDnsRecords zone pre st).2)
         = (inl ce, w) →
       CreateDnsRecords zone records st =
         (Some (ErrWrap "unable to create record" (ErrClient ce)),
          {| world := w;
             calls := calls st ++ (CallCreateRecord zone <$> pre)
                      ++ [CallCreateRecord zone r] |}))
  ∧ (∀ e, (CreateDnsRecords zone records st).1 = Some e →
       ∃ pre r post ce w,
         records = pre ++ r :: post
         ∧ (CreateDnsRecords zone pre st).1 = None
         ∧ CreateRecord zone r (world (CreateDnsRecords zone pre st).2)
           = (inl ce, w)).
Proof.
  split; [apply CreateDnsRecords_calls|]. split; [|split].
  - intros Hok. revert st.
    induction records as [|r records IH]; intros st; [done|].
    simpl. run. destruct (Hok r (world st)) as (id & w' & ->). apply IH.
  - intros pre r post ce w -> Hpre Hr. rewrite CreateDnsRecords_app.
    destruct (CreateDnsRecords_calls zone pre st)
      as (issued & _ & Hc & Hall & _).
    destruct (CreateDnsRecords zone pre st) as [res st1]. simpl in *.
    subst res. rewrite (Hall eq_refl) in Hc. run. rewrite Hr, Hc.
    by rewrite <- app_assoc.
  - apply CreateDnsRecords_error_origin.
Qed.

(** X8. When the delete operation, or the update operation, returns no
    error, the identifier of every record has parsed and exactly one call
    per record has been issued, in the order of the list. *)
Theorem delete_update_success_calls (zone : gostring)
    (records : list Record_) (st : State) :
  ((DeleteDnsRecords zone records st).1 = None →
     ∃ cs, mapM (deleteCall zone) records = Some cs
       ∧ length cs = length records
       ∧ calls (DeleteDnsRecords zone records st).2 = calls st ++ cs)
  ∧ ((UpdateDnsRecords zone records st).1 = None →
       ∃ cs, mapM (editCall zone) records = Some cs
         ∧ length cs = length records
         ∧ calls (UpdateDnsRecords zone records st).2 = calls st ++ cs).
Proof.
  split; intros Hnone.
  - destruct (DeleteDnsRecords_calls zone records st)
      as (issued & cs & _ & Hm & Hc & Hall).
    rewrite (Hall Hnone) in Hm. exists cs. split; [done|].
    split; [symmetry; by eapply length_mapM|done].
  - destruct (UpdateDnsRecords_calls zone records st)
      as (issued & cs & _ & Hm & Hc & Hall).
    rewrite (Hall Hnone) in Hm. exists cs. split; [done|].
    split; [symmetry; by eapply length_mapM|done].
Qed.

Lemma mapM_deleteCall_zone (zone : gostring) (records : list Record_) :
  ∀ cs, mapM (deleteCall zone) records = Some cs →
        Forall (λ c, callZone c = Some zone) cs.
Proof.
  induction records as [|r records IH]; intros cs.
  - intros [= <-]. constructor.
  - cbn -[deleteCall]. destruct (deleteCall zone r) as [c|] eqn:Hc; [|done].
    cbn -[deleteCall]. destruct (mapM (deleteCall zone) records) as [cs'|];
      [|done].
    intros [= <-]. constructor; [|by apply IH].
    unfold deleteCall in Hc. destruct (Strconv.Atoi (ID r)); [done|].
    by injection Hc as <-.
Qed.

Lemma mapM_editCall_zone (zone : gostring) (records : list Record_) :
  ∀ cs, mapM (editCall zone) records = Some cs →
        Forall (λ c, callZone c = Some zone) cs.
Proof.
  induction records as [|r records IH]; intros cs.
  - intros [= <-]. constructor.
  - cbn -[editCall]. destruct (editCall zone r) as [c|] eqn:Hc; [|done].
    cbn -[editCall]. destruct (mapM (editCall zone) records) as [cs'|];
      [|done].
    intros [= <-]. constructor; [|by apply IH].
    unfold editCall in Hc. destruct (Strconv.Atoi (ID r)); [done|].
    by injection Hc as <-.
Qed.

Lemma removeNoop_nothing_left (c : Changes) :
  Create c = [] → Delete c = [] →
  Forall (λ ep, isNoop (UpdateOld c) ep = true) (UpdateNew c) →
  removeNoopTXTUpdates c =
    {| Create := []; UpdateOld := UpdateOld c; UpdateNew := [];
       Delete := [] |}.
Proof.
  intros Hc Hd Hn. rewrite removeNoop_eq, Hc, Hd. f_equal.
  induction Hn as [|ep eps Hep _ IH]; [done|].
  rewrite filter_cons_False; [done|]. by rewrite Hep.
Qed.

(** X9. A zone whose batch has nothing to create and nothing to delete,
    and whose updates are all no-ops, is not contacted at all: applying
    its changes issues no call, leaves the state as it is and succeeds. *)
Theorem applyChangesToZone_nothing_to_do (c : Changes) (zone : gostring)
    (st : State) :
  Create c = [] → Delete c = [] →
  Forall (λ ep, isNoop (UpdateOld c) ep = true) (UpdateNew c) →
  applyChangesToZone c zone st = (None, st).
Proof.
  intros Hc Hd Hn. unfold applyChangesToZone.
  by rewrite (removeNoop_nothing_left c Hc Hd Hn).
Qed.

(** The run of a zone whose records could be listed. *)
Lemma applyChangesToZone_run (c : Changes) (zone : gostring) (st : State)
    (recs : list Record_) (w : World) :
  (length (Create (removeNoopTXTUpdates c))
   + length (Delete (removeNoopTXTUpdates c))
   + length (UpdateNew (removeNoopTXTUpdates c)) ≠ 0)%nat →
  RetrieveRecords zone (world st) = (inr recs, w) →
  applyChangesToZone c zone st =
    let c' := removeNoopTXTUpdates c in
    let (de, st2) :=
      DeleteDnsRecords zone (convertToPorkbunRecord recs (Delete c') zone true)
        {| world := w; calls := calls st ++ [CallRetrieveRecords zone] |} in
    match de with
    | Some e => (Some (ErrWrap "unable to delete records" e), st2)
    | None =>
        let (ce, st3) :=
          CreateDnsRecords zone
            (convertToPorkbunRecord recs (Create c') zone false) st2 in
        match ce with
        | Some e => (Some (ErrWrap "unable to create records" e), st3)
        | None =>
            let (ue, st4) :=
              UpdateDnsRecords zone
                (convertToPorkbunRecord recs (UpdateNew c') zone false) st3 in
            (match ue with
             | Some e => Some (ErrWrap "unable to update records" e)
             | None => None
             end, st4)
        end
    end.
Proof.
  intros Hwork Hlist. unfold applyChangesToZone.
  rewrite bool_decide_eq_false_2 by done.
  unfold bind, call, ret. rewrite Hlist. simpl.
  destruct (DeleteDnsRecords zone _ _) as [[de|] st2]; [done|].
  destruct (CreateDnsRecords zone _ _) as [[ce|] st3]; [done|].
  by destruct (UpdateDnsRecords zone _ _) as [[ue|] st4].
Qed.

(** X10. A zone with something to do is listed once, before anything is
    written. When the listing fails, nothing is written and the wrapped
    error of the client is returned. Otherwise the calls that follow are
    deletes, then creates, then updates, all built from the one listing:
    no create is issued before every delete has been issued, no update
    before every create, and on success every record has been issued. *)
Theorem applyChangesToZone_call_order (c : Changes) (zone : gostring)
    (st : State) :
  (length (Create (removeNoopTXTUpdates c))
   + length (Delete (removeNoopTXTUpdates c))
   + length (UpdateNew (removeNoopTXTUpdates c)) ≠ 0)%nat →
  match RetrieveRecords zone (world st) with
  | (inl e, w) =>
      applyChangesToZone c zone st =
        (Some (ErrWrap "unable to get DNS records" (ErrClient e)),
         {| world := w; calls := calls st ++ [CallRetrieveRecords zone] |})
  | (inr recs, w) =>
      let toDelete :=
        convertToPorkbunRecord recs (Delete (removeNoopTXTUpdates c)) zone
          true in
      let toCreate :=
        convertToPorkbunRecord recs (Create (removeNoopTXTUpdates c)) zone
          false in
      let toUpdate :=
        convertToPorkbunRecord recs (UpdateNew (removeNoopTXTUpdates c)) zone
          false in
      ∃ dels creates edits dcs ecs,
        dels `prefix_of` toDelete
        ∧ creates `prefix_of` toCreate
        ∧ edits `prefix_of` toUpdate
        ∧ mapM (deleteCall zone) dels = Some dcs
        ∧ mapM (editCall zone) edits = Some ecs
        ∧ calls (applyChangesToZone c zone st).2
          = calls st ++ CallRetrieveRecords zone
              :: dcs ++ (CallCreateRecord zone <$> creates) ++ ecs
        ∧ (creates ≠ [] ∨ edits ≠ [] → dels = toDelete)
        ∧ (edits ≠ [] → creates = toCreate)
        ∧ ((applyChangesToZone c zone st).1 = None →
             dels = toDelete ∧ creates = toCreate ∧ edits = toUpdate)
  end.
Proof.
  intros Hwork.
  destruct (RetrieveRecords zone (world st)) as [[e|recs] w] eqn:Hlist.
  { unfold applyChangesToZone. rewrite bool_decide_eq_false_2 by done.
    unfold bind, call, ret. by rewrite Hlist. }
  cbv zeta. rewrite (applyChangesToZone_run c zone st recs w Hwork Hlist).
  cbv zeta.
  set (st1 := {| world := w;
                 calls := calls st ++ [CallRetrieveRecords zone] |}).
  set (toDelete := convertToPorkbunRecord recs
                     (Delete (removeNoopTXTUpdates c)) zone true).
  set (toCreate := convertToPorkbunRecord recs
                     (Create (removeNoopTXTUpdates c)) zone false).
  set (toUpdate := convertToPorkbunRecord recs
                     (UpdateNew (removeNoopTXTUpdates c)) zone false).
  assert (Hst1 : calls st1 = calls st ++ [CallRetrieveRecords zone]) by done.
  clearbody st1.
  destruct (DeleteDnsRecords_calls zone toDelete st1)
    as (dels & dcs & Hdp & Hdm & Hdc & Hdall).
  destruct (DeleteDnsRecords zone toDelete st1) as [[de|] st2];
    simpl in Hdc, Hdall.
  { exists dels, [], [], dcs, []. simpl.
    rewrite Hdc, Hst1, app_nil_r, <- app_assoc.
    repeat split; try done; try apply prefix_nil. by intros [?|?]. }
  specialize (Hdall eq_refl). subst dels.
  destruct (CreateDnsRecords_calls zone toCreate st2)
    as (creates & Hcp & Hcc & Hcall & _).
  destruct (CreateDnsRecords zone toCreate st2) as [[ce|] st3];
    simpl in Hcc, Hcall.
  { exists toDelete, creates, [], dcs, []. simpl.
    rewrite Hcc, Hdc, Hst1, app_nil_r, <- !app_assoc.
    repeat split; try done; apply prefix_nil. }
  specialize (Hcall eq_refl). subst creates.
  destruct (UpdateDnsRecords_calls zone toUpdate st3)
    as (edits & ecs & Hup & Hum & Huc & Huall).
  destruct (UpdateDnsRecords zone toUpdate st3) as [[ue|] st4];
    simpl in Huc, Huall.
  - exists toDelete, toCreate, edits, dcs, ecs. simpl.
    rewrite Huc, Hcc, Hdc, Hst1, <- !app_assoc.
    repeat split; done.
  - specialize (Huall eq_refl). subst edits.
    exists toDelete, toCreate, toUpdate, dcs, ecs. simpl.
    rewrite Huc, Hcc, Hdc, Hst1, <- !app_assoc.
    repeat split; done.
Qed.

(** * Routing the endpoints to the zones *)

Lemma initZones_lookup (filters : list gostring) (z : gostring) :
  ∀ m : gmap gostring Changes,
    initZones m filters !! z =
      if decide (z ∈ filters) then Some emptyChanges else m !! z.
Proof.
  induction filters as [|zoneName filters IH]; intros m; cbn [initZones].
  - rewrite decide_False; [done|]. apply not_elem_of_nil.
  - rewrite IH. destruct (decide (z ∈ filters)) as [Hin|Hnin].
    + rewrite decide_True; [done|]. by right.
    + destruct (decide (zoneName = z)) as [->|Hne].
      * rewrite lookup_insert_eq, decide_True; [done|]. left.
      * rewrite lookup_insert_ne by done. rewrite decide_False; [done|].
        intros [?|?]%elem_of_cons; congruence.
Qed.

Lemma route_lookup (filters : list gostring)
    (add : Endpoint → Changes → Changes) (z : gostring)
    (eps : list Endpoint) :
  ∀ m : gmap gostring Changes,
    route filters add m eps !! z =
      (λ c, foldl (routeStep filters add z) c eps) <$> m !! z.
Proof.
  induction eps as [|ep eps IH]; intros m; simpl.
  - by destruct (m !! z).
  - case_bool_decide as Hnil.
    + rewrite IH. destruct (m !! z) as [c|]; [|done]. simpl.
      replace (routeStep filters add z c ep) with c; [done|].
      unfold routeStep. rewrite decide_False; [done|].
      intros [Hz Hne]. congruence.
    + rewrite IH, lookup_alter.
      destruct (decide (endpointZoneName ep filters = z)) as [Heq|Hne].
      * subst z. destruct (m !! endpointZoneName ep filters) as [c|]; [|done].
        simpl. replace (routeStep filters add _ c ep) with (add ep c); [done|].
        unfold routeStep. by rewrite decide_True.
      * destruct (m !! z) as [c|]; [|done]. simpl.
        replace (routeStep filters add z c ep) with c; [done|].
        unfold routeStep. by rewrite decide_False by tauto.
Qed.

Lemma routeStep_nil (filters : list gostring)
    (add : Endpoint → Changes → Changes) (eps : list Endpoint) :
  ∀ c, foldl (routeStep filters add []) c eps = c.
Proof.
  induction eps as [|ep eps IH]; intros c; simpl; [done|].
  replace (routeStep filters add [] c ep) with c; [apply IH|].
  unfold routeStep. by rewrite decide_False by tauto.
Qed.

Lemma routeStep_fold (filters : list gostring)
    (add : Endpoint → Changes → Changes) (z : gostring)
    (eps : list Endpoint) :
  z ≠ [] →
  ∀ c, foldl (routeStep filters add z) c eps =
       foldl (λ c ep, add ep c) c (routedTo filters z eps).
Proof.
  intros Hz. induction eps as [|ep eps IH]; intros c; simpl; [done|].
  unfold routedTo. rewrite filter_cons.
  destruct (decide (endpointZoneName ep filters = z)) as [Heq|Hne].
  - replace (routeStep filters add z c ep) with (add ep c); [apply IH|].
    unfold routeStep. by rewrite decide_True.
  - replace (routeStep filters add z c ep) with c; [apply IH|].
    unfold routeStep. by rewrite decide_False by tauto.
Qed.

Lemma foldl_addCreate (eps : list Endpoint) :
  ∀ c, foldl (λ c ep, addCreate ep c) c eps =
       {| Create := Create c ++ eps; UpdateOld := UpdateOld c;
          UpdateNew := UpdateNew c; Delete := Delete c |}.
Proof.
  induction eps as [|ep eps IH]; intros [cr uo un de]; simpl.
  - by rewrite app_nil_r.
  - rewrite IH. simpl. by rewrite <- app_assoc.
Qed.

Lemma foldl_addUpdateOld (eps : list Endpoint) :
  ∀ c, foldl (λ c ep, addUpdateOld ep c) c eps =
       {| Create := Create c; UpdateOld := UpdateOld c ++ eps;
          UpdateNew := UpdateNew c; Delete := Delete c |}.
Proof.
  induction eps as [|ep eps IH]; intros [cr uo un de]; simpl.
  - by rewrite app_nil_r.
  - rewrite IH. simpl. by rewrite <- app_assoc.
Qed.

Lemma foldl_addUpdateNew (eps : list Endpoint) :
  ∀ c, foldl (λ c ep, addUpdateNew ep c) c eps =
       {| Create := Create c; UpdateOld := UpdateOld c;
          UpdateNew := UpdateNew c ++ eps; Delete := Delete c |}.
Proof.
  induction eps as [|ep eps IH]; intros [cr uo un de]; simpl.
  - by rewrite app_nil_r.
  - rewrite IH. simpl. by rewrite <- app_assoc.
Qed.

Lemma foldl_addDelete (eps : list Endpoint) :
  ∀ c, foldl (λ c ep, addDelete ep c) c eps =
       {| Create := Create c; UpdateOld := UpdateOld c;
          UpdateNew := UpdateNew c; Delete := Delete c ++ eps |}.
Proof.
  induction eps as [|ep eps IH]; intros [cr uo un de]; simpl.
  - by rewrite app_nil_r.
  - rewrite IH. simpl. by rewrite <- app_assoc.
Qed.

(** X11. The partition of a batch holds one bucket per configured zone
    and no other. The bucket of a zone holds, list by list and in the
    order of the batch, the endpoints that the zone matcher assigns to
    this zone; an endpoint without a zone is in no bucket, and the bucket
    of an empty zone name stays empty. *)
Theorem partition_lookup (filters : list gostring) (changes : Changes)
    (z : gostring) :
  partition filters changes !! z =
    if decide (z ∈ filters)
    then Some (if decide (z = []) then emptyChanges
               else bucketOf filters changes z)
    else None.
Proof.
  unfold partition. rewrite !route_lookup, initZones_lookup, lookup_empty.
  destruct (decide (z ∈ filters)); [|done]. simpl. f_equal.
  destruct (decide (z = [])) as [->|Hz].
  - by rewrite !routeStep_nil.
  - rewrite !routeStep_fold by done.
    rewrite foldl_addCreate, foldl_addUpdateOld, foldl_addUpdateNew,
      foldl_addDelete.
    done.
Qed.

(** * The zones the calls are made on *)

Lemma DeleteDnsRecords_zone (zone : gostring) (records : list Record_)
    (st : State) :
  ∃ l, calls (DeleteDnsRecords zone records st).2 = calls st ++ l
       ∧ Forall (λ c, callZone c = Some zone) l.
Proof.
  destruct (DeleteDnsRecords_calls zone records st)
    as (issued & cs & _ & Hm & Hc & _).
  exists cs. split; [done|]. by eapply mapM_deleteCall_zone.
Qed.

Lemma UpdateDnsRecords_zone (zone : gostring) (records : list Record_)
    (st : State) :
  ∃ l, calls (UpdateDnsRecords zone records st).2 = calls st ++ l
       ∧ Forall (λ c, callZone c = Some zone) l.
Proof.
  destruct (UpdateDnsRecords_calls zone records st)
    as (issued & cs & _ & Hm & Hc & _).
  exists cs. split; [done|]. by eapply mapM_editCall_zone.
Qed.

Lemma CreateDnsRecords_zone (zone : gostring) (records : list Record_)
    (st : State) :
  ∃ l, calls (CreateDnsRecords zone records st).2 = calls st ++ l
       ∧ Forall (λ c, callZone c = Some zone) l.
Proof.
  destruct (CreateDnsRecords_calls zone records st) as (issued & _ & Hc & _).
  exists (CallCreateRecord zone <$> issued). split; [done|].
  apply Forall_fmap, Forall_forall. done.
Qed.

(** Applying the changes of a zone calls the client on that zone only. *)
Lemma applyChangesToZone_zone (c : Changes) (zone : gostring) (st : State) :
  ∃ l, calls (applyChangesToZone c zone st).2 = calls st ++ l
       ∧ Forall (λ c, callZone c = Some zone) l.
Proof.
  unfold applyChangesToZone. case_bool_decide as Hwork.
  { exists []. simpl. by rewrite app_nil_r. }
  unfold bind at 1, call.
  destruct (RetrieveRecords zone (world st)) as [[e|recs] w].
  { exists [CallRetrieveRecords zone]. split; [done|]. by constructor. }
  cbv zeta. cbn [pcDelete pcCreate pcDesiredAfterUpdate].
  set (st1 := {| world := w;
                 calls := calls st ++ [CallRetrieveRecords zone] |}).
  unfold bind at 1.
  destruct (DeleteDnsRecords_zone zone
              (convertToPorkbunRecord recs (Delete (removeNoopTXTUpdates c))
                 zone true) st1) as (l1 & Hc1 & Hz1).
  destruct (DeleteDnsRecords zone _ st1) as [[de|] st2]; simpl in Hc1.
  { exists (CallRetrieveRecords zone :: l1). unfold ret. simpl.
    rewrite Hc1. subst st1. simpl. rewrite <- app_assoc.
    split; [done|]. by constructor. }
  unfold bind at 1.
  destruct (CreateDnsRecords_zone zone
              (convertToPorkbunRecord recs (Create (removeNoopTXTUpdates c))
                 zone false) st2) as (l2 & Hc2 & Hz2).
  destruct (CreateDnsRecords zone _ st2) as [[ce|] st3]; simpl in Hc2.
  { exists (CallRetrieveRecords zone :: l1 ++ l2). unfold ret. simpl.
    rewrite Hc2, Hc1. subst st1. simpl. rewrite <- !app_assoc.
    split; [done|]. constructor; [done|]. by apply Forall_app. }
  unfold bind at 1.
  destruct (UpdateDnsRecords_zone zone
              (convertToPorkbunRecord recs
                 (UpdateNew (removeNoopTXTUpdates c)) zone false) st3)
    as (l3 & Hc3 & Hz3).
  destruct (UpdateDnsRecords zone _ st3) as [[ue|] st4]; simpl in Hc3;
    (exists (CallRetrieveRecords zone :: l1 ++ l2 ++ l3); unfold ret; simpl;
     rewrite Hc3, Hc2, Hc1; subst st1; simpl; rewrite <- !app_assoc;
     split; [done|]; constructor; [done|]; by rewrite !Forall_app).
Qed.

Lemma zoneOutcomes_zone_calls (entries : list (gostring * Changes)) :
  ∀ st, ∃ l,
    calls (zoneOutcomes entries st).2 = calls st ++ l
    ∧ Forall (λ c, ∃ z, callZone c = Some z ∧ z ∈ entries.*1) l.
Proof.
  induction entries as [|[zoneName c] entries IH]; intros st; simpl.
  - exists []. unfold ret. simpl. by rewrite app_nil_r.
  - destruct (HasChanges c).
    + unfold bind at 1.
      destruct (applyChangesToZone_zone c zoneName st) as (l1 & Hc1 & Hz1).
      destruct (applyChangesToZone c zoneName st) as [err st1]; simpl in Hc1.
      unfold bind at 1. destruct (IH st1) as (l2 & Hc2 & Hz2).
      destruct (zoneOutcomes entries st1) as [rest st2]; simpl in Hc2.
      exists (l1 ++ l2). unfold ret. simpl. rewrite Hc2, Hc1, <- app_assoc.
      split; [done|]. apply Forall_app. split.
      * eapply Forall_impl; [exact Hz1|]. intros x Hx. exists zoneName.
        split; [done|]. left.
      * eapply Forall_impl; [exact Hz2|]. intros x (z & Hx & Hin).
        exists z. split; [done|]. by right.
    + destruct (IH st) as (l & Hc & Hz). exists l. split; [done|].
      eapply Forall_impl; [exact Hz|]. intros x (z & Hx & Hin).
      exists z. split; [done|]. by right.
Qed.

Lemma rangeOrder_partition_zones (filters : list gostring)
    (changes : Changes) (z : gostring) :
  z ∈ (rangeOrder (partition filters changes)).*1 → z ∈ filters.
Proof.
  rewrite rangeOrder_perm, list_elem_of_fmap.
  intros ([z' c] & -> & Hin). apply elem_of_map_to_list in Hin. simpl.
  assert (Hdom : z' ∈ dom (partition filters changes))
    by (apply elem_of_dom; by eexists).
  rewrite dom_partition in Hdom. by apply elem_of_list_to_set in Hdom.
Qed.

(** X12. Whatever the batch and whatever the client answers, applying a
    batch only adds calls to those issued before, and every call it adds
    is the login or a call on one of the configured zones. *)
Theorem ApplyChanges_calls_configured_zones (p : PorkbunProvider)
    (changes : Changes) (st : State) :
  ∃ l, calls (ApplyChanges p changes st).2 = calls st ++ l
       ∧ Forall (λ c, c = CallPing
                      ∨ ∃ z, callZone c = Some z ∧ z ∈ domainFilter p) l.
Proof.
  unfold ApplyChanges. destruct (HasChanges changes); simpl.
  2: { exists []. unfold ret. simpl. by rewrite app_nil_r. }
  destruct (dryRun p) eqn:Hdry.
  { exists []. unfold bind, ret. simpl. by rewrite app_nil_r. }
  unfold bind at 1, ensureLogin, bind, call, ret.
  destruct (Ping (world st)) as [[e|] w]; simpl.
  { exists [CallPing]. split; [done|]. constructor; [by left|done]. }
  rewrite ApplyChanges_loop_spec. simpl.
  destruct (zoneOutcomes_zone_calls
              (rangeOrder (partition (domainFilter p) changes))
              {| world := w; calls := calls st ++ [CallPing] |})
    as (l & Hc & Hz).
  exists (CallPing :: l). rewrite Hc. simpl. rewrite <- app_assoc.
  split; [done|]. constructor; [by left|].
  eapply Forall_impl; [exact Hz|]. intros x (z & Hx & Hin). right.
  exists z. split; [done|]. by eapply rangeOrder_partition_zones.
Qed.

(** * Batches that leave nothing to do *)

Lemma route_unmatched (filters : list gostring)
    (add : Endpoint → Changes → Changes) (eps : list Endpoint) :
  Forall (λ ep, endpointZoneName ep filters = []) eps →
  ∀ m, route filters add m eps = m.
Proof.
  induction 1 as [|ep eps Hep _ IH]; intros m; simpl; [done|].
  by rewrite bool_decide_eq_true_2.
Qed.

Lemma ApplyChanges_loop_empty (entries : list (gostring * Changes)) :
  Forall (λ zc, zc.2 = emptyChanges) entries →
  ∀ st, ApplyChanges_loop entries None st = (None, st).
Proof.
  induction 1 as [|[z c] entries Hc _ IH]; intros st; simpl; [done|].
  simpl in Hc. subst c. destruct (HasChanges emptyChanges); simpl; [|apply IH].
  unfold bind. simpl. apply IH.
Qed.

(** X13. A batch none of whose endpoints belongs to a configured zone is
    dropped without an error: after the login no zone is contacted, and
    the result and the state are those of the login. *)
Theorem ApplyChanges_unmatched_endpoints (p : PorkbunProvider)
    (changes : Changes) (st : State) :
  Forall (λ ep, endpointZoneName ep (domainFilter p) = [])
    (allEndpoints changes) →
  HasChanges changes = true →
  dryRun p = false →
  ApplyChanges p changes st = ensureLogin st.
Proof.
  intros Hun Hchanges Hdry. unfold allEndpoints in Hun.
  rewrite !Forall_app in Hun. destruct Hun as (Hc & Huo & Hun & Hd).
  unfold ApplyChanges. rewrite Hchanges, Hdry. simpl.
  unfold bind at 1. destruct (ensureLogin st) as [[e|] st1]; [done|].
  apply ApplyChanges_loop_empty. apply Forall_forall. intros [z c] Hin.
  simpl.
  assert (Hin' : (z, c) ∈ map_to_list (partition (domainFilter p) changes))
    by (by rewrite <- rangeOrder_perm).
  apply elem_of_map_to_list in Hin'. unfold partition in Hin'.
  rewrite !route_unmatched in Hin' by done.
  rewrite initZones_lookup, lookup_empty in Hin'.
  case_decide; congruence.
Qed.

(** X14. Without changes, and in a dry run, the client is never called:
    applying a batch succeeds and leaves the state as it is, and the
    listing of a dry run returns no endpoints. *)
Theorem no_contact_without_changes_or_in_dry_run (p : PorkbunProvider)
    (changes : Changes) (st : State) :
  (HasChanges changes = false ∨ dryRun p = true →
     ApplyChanges p changes st = (None, st))
  ∧ (dryRun p = true → Records p st = (Returned (inr []), st)).
Proof.
  split.
  - intros Hor. unfold ApplyChanges.
    destruct (HasChanges changes); simpl; [|done].
    destruct Hor as [?|Hdry]; [done|]. by rewrite Hdry.
  - intros Hdry. unfold Records. by rewrite Hdry.
Qed.

(** * The calls of the listing *)

Lemma Records_loop_calls (domains : list gostring) :
  ∀ endpoints st,
    calls (Records_loop domains endpoints st).2 =
      calls st ++ (CallRetrieveRecords <$> domains).
Proof.
  induction domains as [|domain domains IH]; intros endpoints st; simpl.
  - by rewrite app_nil_r.
  - unfold bind, call.
    destruct (RetrieveRecords domain (world st)) as [[e|records] w];
      rewrite IH; simpl; by rewrite <- app_assoc.
Qed.

(** X15. Outside a dry run the listing logs in and then asks for the
    records of every configured zone, once each and in the order of the
    filter, whether the zones before it could be listed or not. A zone
    that cannot be listed is no error of the listing: after a good login
    the listing returns endpoints, none of them nil, or panics in its last
    loop. After a failed login no zone is asked. *)
Theorem Records_lists_every_zone (p : PorkbunProvider) (st : State) :
  dryRun p = false →
  calls (Records p st).2 =
    calls st ++ CallPing
      :: (if (ensureLogin st).1 is None
          then CallRetrieveRecords <$> domainFilter p else [])
  ∧ ((ensureLogin st).1 = None →
       (∃ eps, (Records p st).1 = Returned (inr eps) ∧ Forall is_Some eps)
       ∨ (Records p st).1 = Panicked).
Proof.
  intros Hdry. unfold Records. rewrite Hdry.
  unfold bind at 1, ensureLogin, bind, call, ret.
  destruct (Ping (world st)) as [[e|] w]; simpl; [done|].
  pose proof (Records_loop_calls (domainFilter p) []
                {| world := w; calls := calls st ++ [CallPing] |}) as Hc.
  destruct (Records_loop _ _ _) as [eps st2]. simpl in *.
  destruct (Records_log eps) eqn:Hlog; simpl;
    rewrite Hc, <- app_assoc; (split; [done|]); intros _.
  - left. exists eps. split; [done|]. by apply Records_log_spec.
  - by right.
Qed.

(** * The TTL from the converter to the listing *)

(** X16. The TTL survives the way through the provider's record: the
    string that the converter writes for an endpoint with a 64-bit TTL
    parses back to that TTL, so the listing builds the endpoint of such a
    record with the TTL of the endpoint and not with the default. *)
Theorem converter_ttl_round_trip (recs : list Record_) (ep : Endpoint)
    (zoneName domain : gostring) (strict : bool) (target : gostring)
    (rest : list gostring) :
  Targets ep = target :: rest →
  - 2 ^ 63 ≤ RecordTTL ep < 2 ^ 63 →
  ∃ r, convertToPorkbunRecord recs [ep] zoneName strict = [r]
    ∧ Strconv.Atoi (TTL r) = inr (RecordTTL ep)
    ∧ recordEndpoint domain r =
        NewEndpointWithTTL (endpointNameOf domain r) (RecordType ep)
          (RecordTTL ep) [Content r].
Proof.
  intros Ht Hrange. simpl. rewrite Ht. eexists. split; [reflexivity|].
  simpl. split; [by apply Atoi_FormatInt|].
  unfold recordEndpoint. simpl. by rewrite Atoi_FormatInt.
Qed.

End ProviderMore.

(** * Endpoints without a listed record *)

Section Unlisted.

Context `{Client}.

Lemma getIDforRecord_no_match (recordName target recordType : gostring)
    (recs : list Record_) (strict : bool) :
  Forall (λ rec, matchesQuery recordName target recordType strict rec = false)
    recs →
  getIDforRecord recordName target recordType recs strict = [].
Proof.
  induction 1 as [|rec recs Hrec _ IH]; [done|].
  by rewrite getIDforRecord_step, Hrec.
Qed.

(** X17. An endpoint to delete, or to update, for which the listing holds
    no matching record is converted into a record with the empty
    identifier, and the delete operation, or the update operation, fails
    on it with the parse error of that identifier before any call. *)
Theorem unlisted_endpoint_fails (recs : list Record_) (ep : Endpoint)
    (zone : gostring) (strict : bool) (target : gostring)
    (rest : list gostring) (st : State) :
  Targets ep = target :: rest →
  Forall (λ rec, matchesQuery (DNSName ep)
                   (contentOf (RecordType ep) target) (RecordType ep) strict
                   rec = false) recs →
  ∃ r, convertToPorkbunRecord recs [ep] zone strict = [r]
    ∧ ID r = []
    ∧ DeleteDnsRecords zone [r] st
      = (Some (ErrParseID r Strconv.ErrSyntax), st)
    ∧ UpdateDnsRecords zone [r] st
      = (Some (ErrParseID r Strconv.ErrSyntax), st).
Proof.
  intros Ht Hnone. simpl. rewrite Ht. eexists. split; [reflexivity|].
  simpl. rewrite (getIDforRecord_no_match _ _ _ _ _ Hnone). done.
Qed.

End Unlisted.

(** * More runs on the client in memory *)

(** One record to delete, one to create and one to update in [bar.org]:
    the listing, the delete, the create, the update. *)
Example applyChangesToZone_sample :
  calls (@applyChangesToZone memClient mixedBatch (str "bar.org")
           (initial [recFooListed; recOld])).2
  = [CallRetrieveRecords (str "bar.org");
     CallDeleteRecord (str "bar.org") 11;
     CallCreateRecord (str "bar.org")
       {| ID := []; Name := str "new"; Type_ := str "A";
          Content := str "1.1.1.1"; TTL := str "600";
          Prio := []; Notes := [] |};
     CallEditRecord (str "bar.org") 10
       {| ID := str "10"; Name := str "foo"; Type_ := str "A";
          Content := str "5.5.5.5"; TTL := str "600";
          Prio := []; Notes := [] |}].
Proof. vm_compute. reflexivity. Qed.

Lemma applyChangesToZone_nothing_to_do_witness :
  @applyChangesToZone memClient noopBatch (str "bar.org") (initial [])
  = (None, initial []).
Proof.
  apply (@applyChangesToZone_nothing_to_do memClient noopBatch
           (str "bar.org") (initial [])).
  - reflexivity.
  - reflexivity.
  - repeat constructor.
Defined.

Lemma applyChangesToZone_call_order_witness :
  let recs := [recFooListed; recOld] in
  let toDelete :=
    convertToPorkbunRecord recs (Delete (removeNoopTXTUpdates mixedBatch))
      (str "bar.org") true in
  let toCreate :=
    convertToPorkbunRecord recs (Create (removeNoopTXTUpdates mixedBatch))
      (str "bar.org") false in
  let toUpdate :=
    convertToPorkbunRecord recs (UpdateNew (removeNoopTXTUpdates mixedBatch))
      (str "bar.org") false in
  ∃ dels creates edits dcs ecs,
    dels `prefix_of` toDelete
    ∧ creates `prefix_of` toCreate
    ∧ edits `prefix_of` toUpdate
    ∧ mapM (deleteCall (str "bar.org")) dels = Some dcs
    ∧ mapM (editCall (str "bar.org")) edits = Some ecs
    ∧ calls (@applyChangesToZone memClient mixedBatch (str "bar.org")
               (initial recs)).2
      = calls (initial recs) ++ CallRetrieveRecords (str "bar.org")
          :: dcs ++ (CallCreateRecord (str "bar.org") <$> creates) ++ ecs
    ∧ (creates ≠ [] ∨ edits ≠ [] → dels = toDelete)
    ∧ (edits ≠ [] → creates = toCreate)
    ∧ ((@applyChangesToZone memClient mixedBatch (str "bar.org")
          (initial recs)).1 = None →
         dels = toDelete ∧ creates = toCreate ∧ edits = toUpdate).
Proof.
  refine (@applyChangesToZone_call_order memClient mixedBatch (str "bar.org")
            (initial [recFooListed; recOld]) _).
  vm_compute. discriminate.
Defined.

Lemma ApplyChanges_unmatched_endpoints_witness :
  @ApplyChanges memClient testExternals twoZones foreignBatch (initial [])
  = @ensureLogin memClient (initial []).
Proof.
  apply (@ApplyChanges_unmatched_endpoints memClient testExternals twoZones
           foreignBatch (initial [])).
  - repeat constructor.
  - reflexivity.
  - reflexivity.
Defined.

Lemma Records_lists_every_zone_witness :
  calls (@Records memClient testExternals twoZones (initial [recFooListed])).2
  = calls (initial [recFooListed]) ++ CallPing
      :: (if (@ensureLogin memClient (initial [recFooListed])).1 is None
          then CallRetrieveRecords <$> domainFilter twoZones else [])
  ∧ ((@ensureLogin memClient (initial [recFooListed])).1 = None →
       (∃ eps, (@Records memClient testExternals twoZones
                  (initial [recFooListed])).1 = Returned (inr eps)
               ∧ Forall is_Some eps)
       ∨ (@Records memClient testExternals twoZones
            (initial [recFooListed])).1 = Panicked).
Proof.
  apply (@Records_lists_every_zone memClient testExternals twoZones
           (initial [recFooListed])).
  reflexivity.
Defined.

Lemma converter_ttl_round_trip_witness :
  ∃ r, convertToPorkbunRecord [recFooListed] [epFoo] (str "bar.org") false
       = [r]
    ∧ Strconv.Atoi (TTL r) = inr (RecordTTL epFoo)
    ∧ @recordEndpoint testExternals (str "bar.org") r =
        @NewEndpointWithTTL testExternals
          (endpointNameOf (str "bar.org") r) (RecordType epFoo)
          (RecordTTL epFoo) [Content r].
Proof.
  apply (@converter_ttl_round_trip testExternals [recFooListed] epFoo
           (str "bar.org") (str "bar.org") false (str "5.5.5.5")
           [str "6.6.6.6"]).
  - reflexivity.
  - simpl. lia.
Defined.

Lemma unlisted_endpoint_fails_witness :
  ∃ r, convertToPorkbunRecord [recOld] [epFoo] (str "bar.org") true = [r]
    ∧ ID r = []
    ∧ @DeleteDnsRecords memClient (str "bar.org") [r] (initial [recOld])
      = (Some (ErrParseID r Strconv.ErrSyntax), initial [recOld])
    ∧ @UpdateDnsRecords memClient (str "bar.org") [r] (initial [recOld])
      = (Some (ErrParseID r Strconv.ErrSyntax), initial [recOld]).
Proof.
  apply (@unlisted_endpoint_fails memClient [recOld] epFoo (str "bar.org")
           true (str "5.5.5.5") [str "6.6.6.6"] (initial [recOld])).
  - reflexivity.
  - repeat constructor.
Defined.

(** The client refuses the second of three creates: the third is not
    issued, and the error is that of the second. *)
Example CreateDnsRecords_refused_sample :
  @CreateDnsRecords pickyClient (str "bar.org")
    [named "www"; named "bad"; named "api"] (@mkState pickyClient [] [])
  = (Some (ErrWrap "unable to create record"
             (@ErrClient pickyClient "create refused")),
     @mkState pickyClient [named "www"]
       [CallCreateRecord (str "bar.org") (named "www");
        CallCreateRecord (str "bar.org") (named "bad")]).
Proof. vm_compute. reflexivity. Qed.

(** With a constructor that refuses long labels, the listing of a record
    with such a label panics in its last loop; the TTL of the record does
    not parse either, and the same record with a short label is listed
    with the TTL 600. *)
Example Records_nil_endpoint_sample :
  (@Records memClient labelCheckExternals
     {| domainFilter := [str "bar.org"]; dryRun := false |}
     (initial [longLabelRecord])).1 = Panicked
  ∧ (@Records memClient labelCheckExternals
       {| domainFilter := [str "bar.org"]; dryRun := false |}
       (initial [withTTL "www.bar.org" "abc"])).1
    = Returned (inr [Some (aRecord "www.bar.org" "5.5.5.5" 600)]).
Proof. vm_compute. done. Qed.
